(** * Pacsea developer scripts: announcement synchroniser and locale-key checker

    A shallow embedding of [dev/scripts/update_version_announcement.py] and
    [dev/scripts/check_translation_keys.py].

    Python [str] values are modelled as [string] (the bytes of the UTF-8
    text); every character the scripts single out (backslash, double quote,
    newline, braces, the letters of the field names) is ASCII, so scanning
    bytes and scanning code points agree on them.  Exceptions are modelled by
    the [result] type. *)

From Stdlib Require Import Ascii String.
From stdpp Require Import base option list strings gmap sorting.

(** ** Characters the scripts single out *)

Definition BSLASH : ascii := "092"%char.
Definition DQUOTE : ascii := "034"%char.
Definition NEWLINE : ascii := "010"%char.

Definition chr (c : ascii) : string := String c EmptyString.

(** ** Exceptions *)

Inductive exn : Type :=
| ValueError (msg : string)
| ReError (msg : string)
| IndexError (msg : string).

Inductive result (A : Type) : Type :=
| Ok (a : A)
| Raise (e : exn).
Arguments Ok {A} a.
Arguments Raise {A} e.

Definition rbind {A B : Type} (r : result A) (k : A → result B) : result B :=
  match r with
  | Ok a => k a
  | Raise e => Raise e
  end.

Definition rmap {A B : Type} (f : A → B) (r : result A) : result B :=
  rbind r (λ a, Ok (f a)).

(** ** Python [str] methods used by the scripts *)

Module Py.

(** [s.startswith(p)], returning the remainder after [p]. *)
Fixpoint strip_prefix (p s : string) : option string :=
  match p with
  | EmptyString => Some s
  | String a p' =>
      match s with
      | String b s' => if Ascii.eqb a b then strip_prefix p' s' else None
      | EmptyString => None
      end
  end.

(** [s[n:]] *)
Fixpoint drop (n : nat) (s : string) : string :=
  match n with
  | O => s
  | S n' => match s with
            | String _ s' => drop n' s'
            | EmptyString => EmptyString
            end
  end.

(** [s[:n]] *)
Fixpoint take (n : nat) (s : string) : string :=
  match n with
  | O => EmptyString
  | S n' => match s with
            | String c s' => String c (take n' s')
            | EmptyString => EmptyString
            end
  end.

(** [old in s] *)
Fixpoint contains (old s : string) : bool :=
  match strip_prefix old s with
  | Some _ => true
  | None => match s with
            | String _ s' => contains old s'
            | EmptyString => false
            end
  end.

(** [s.find(sub)] *)
Fixpoint find_from (sub : string) (off : nat) (s : string) : option nat :=
  match strip_prefix sub s with
  | Some _ => Some off
  | None => match s with
            | String _ s' => find_from sub (S off) s'
            | EmptyString => None
            end
  end.

Definition find (sub s : string) : option nat := find_from sub 0 s.

(** [s.replace(old, new)] for a non-empty [old]: occurrences are found from
    the left and do not overlap.  [skip] counts the characters of an
    occurrence that are still to be stepped over. *)
Fixpoint replace_from (old new : string) (skip : nat) (s : string) : string :=
  match s with
  | EmptyString => EmptyString
  | String c s' =>
      match skip with
      | S k => replace_from old new k s'
      | O =>
          match strip_prefix old s with
          | Some _ => new +:+ replace_from old new (String.length old - 1) s'
          | None => String c (replace_from old new 0 s')
          end
      end
  end.

Definition replace (old new s : string) : string := replace_from old new 0 s.

(** [s.count(c)] for a one-character [c] *)
Fixpoint count (c : ascii) (s : string) : nat :=
  match s with
  | EmptyString => 0
  | String a s' => (if Ascii.eqb a c then 1 else 0) + count c s'
  end.

(** [sep.join(ls)] *)
Definition join (sep : string) (ls : list string) : string := String.concat sep ls.

(** [not s]: the empty string is falsy. *)
Definition falsy (s : string) : bool :=
  match s with
  | EmptyString => true
  | String _ _ => false
  end.

(** [s.split(c)] for a one-character separator: the pieces between the
    occurrences of [c]; never an empty list. *)
Fixpoint split (c : ascii) (s : string) : list string :=
  match s with
  | EmptyString => [EmptyString]
  | String a s' =>
      if Ascii.eqb a c then EmptyString :: split c s'
      else match split c s' with
           | x :: xs => String a x :: xs
           | [] => [String a EmptyString]
           end
  end.

(** [s[a:b]] for [a <= b] *)
Definition slice (a b : nat) (s : string) : string := take (b - a) (drop a s).

(** [s.find(sub, start)] for a non-empty [sub]: the index is counted from the
    start of [s]. *)
Definition find_at (sub : string) (start : nat) (s : string) : option nat :=
  find_from sub start (drop start s).

End Py.

(** ** The part of Python's [re] module the script calls

    Patterns are the ones the script writes: literals, a character class under
    a greedy [*] or [+] or a lazy [*?], and capture groups.  Matching is
    backtracking with the usual priorities (greedy: longest first, lazy:
    shortest first); [search] returns the leftmost match. *)

Module Re.

Inductive cclass : Type :=
| Any                 (* [.] under re.DOTALL *)
| Space               (* [\s] *)
| NotChar (c : ascii) (* [[^c]] *).

(** ASCII characters for which [\s] matches: TAB, LF, VT, FF, CR, the four
    separators FS GS RS US, and SPACE.  (The few whitespace characters outside
    ASCII, which take several bytes, are not recognised by this model.) *)
Definition is_space (c : ascii) : bool :=
  let n := nat_of_ascii c in
  ((9 <=? n) && (n <=? 13)) || ((28 <=? n) && (n <=? 32)).

Definition cmatch (k : cclass) (c : ascii) : bool :=
  match k with
  | Any => true
  | Space => is_space c
  | NotChar d => negb (Ascii.eqb c d)
  end.

Inductive item : Type :=
| Lit (s : string)
| Star (k : cclass)      (* k*  *)
| Plus (k : cclass)      (* k+  *)
| LazyStar (k : cclass)  (* k*? *)
| GOpen (n : nat)
| GClose (n : nat).

Definition pattern := list item.

(** Matcher state: where each open group started (as the text still to be
    read at that point) and the text each closed group captured. *)
Record mstate : Type := MState {
  opened : list (nat * string);
  groups : list (nat * string)
}.

Definition mstate0 : mstate := MState [] [].

Fixpoint assoc {V : Type} (n : nat) (l : list (nat * V)) : option V :=
  match l with
  | [] => None
  | (m, v) :: l' => if Nat.eqb n m then Some v else assoc n l'
  end.

Definition open_group (n : nat) (s : string) (st : mstate) : mstate :=
  MState ((n, s) :: opened st) (groups st).

Definition close_group (n : nat) (s : string) (st : mstate) : mstate :=
  match assoc n (opened st) with
  | Some s0 =>
      MState (opened st)
             ((n, Py.take (String.length s0 - String.length s) s0) :: groups st)
  | None => st
  end.

(** [m.group(n)]; a group that did not take part yields the empty string. *)
Definition group (n : nat) (st : mstate) : string :=
  default EmptyString (assoc n (groups st)).

(** [match_here p st s]: match the whole of [p] at the start of [s]; on
    success the text left after the match and the final state. *)
Fixpoint match_here (p : pattern) (st : mstate) (s : string) {struct p}
  : option (string * mstate) :=
  match p with
  | [] => Some (s, st)
  | Lit l :: p' =>
      match Py.strip_prefix l s with
      | Some s' => match_here p' st s'
      | None => None
      end
  | GOpen n :: p' => match_here p' (open_group n s st) s
  | GClose n :: p' => match_here p' (close_group n s st) s
  | Star k :: p' =>
      (fix greedy (s : string) : option (string * mstate) :=
         match s with
         | String c s' =>
             if cmatch k c then
               match greedy s' with
               | Some r => Some r
               | None => match_here p' st s
               end
             else match_here p' st s
         | EmptyString => match_here p' st s
         end) s
  | Plus k :: p' =>
      match s with
      | String c s' =>
          if cmatch k c then
            (fix greedy (s : string) : option (string * mstate) :=
               match s with
               | String c s' =>
                   if cmatch k c then
                     match greedy s' with
                     | Some r => Some r
                     | None => match_here p' st s
                     end
                   else match_here p' st s
               | EmptyString => match_here p' st s
               end) s'
          else None
      | EmptyString => None
      end
  | LazyStar k :: p' =>
      (fix lazy (s : string) : option (string * mstate) :=
         match match_here p' st s with
         | Some r => Some r
         | None =>
             match s with
             | String c s' => if cmatch k c then lazy s' else None
             | EmptyString => None
             end
         end) s
  end.

(** A match object: the text before the match, the matched text, the text
    after it, and the groups. *)
Record mobj : Type := MObj {
  m_pre : string;
  m_text : string;
  m_post : string;
  m_state : mstate
}.

(** [re.search(p, s)]: the first offset, from the left, at which the
    pattern matches. *)
Fixpoint search_from (p : pattern) (off : nat) (s : string) : option (nat * string * mstate) :=
  match match_here p mstate0 s with
  | Some (rest, st) => Some (off, rest, st)
  | None =>
      match s with
      | String _ s' => search_from p (S off) s'
      | EmptyString => None
      end
  end.

Definition search (p : pattern) (s : string) : option mobj :=
  match search_from p 0 s with
  | Some (off, rest, st) =>
      let tail := Py.drop off s in
      Some (MObj (Py.take off s)
                 (Py.take (String.length tail - String.length rest) tail)
                 rest st)
  | None => None
  end.

(** [re.finditer(p, s)] for a pattern that matches no empty text: the
    matches from left to right, each search resuming where the previous
    match ended. *)
Fixpoint finditer_from (p : pattern) (skip : nat) (s : string) : list mstate :=
  match skip with
  | S k =>
      match s with
      | String _ s' => finditer_from p k s'
      | EmptyString => []
      end
  | O =>
      match match_here p mstate0 s with
      | Some (rest, st) =>
          match s with
          | String _ s' =>
              st :: finditer_from p (String.length s - String.length rest - 1) s'
          | EmptyString => [st]
          end
      | None =>
          match s with
          | String _ s' => finditer_from p 0 s'
          | EmptyString => []
          end
      end
  end.

Definition finditer (p : pattern) (s : string) : list mstate := finditer_from p 0 s.

End Re.

(** ** Replacement templates of [re.sub]

    The replacement string is read as a template: backslash-digit and
    [\g<n>] are group references, the escapes [\a \b \f \n \r \t \v \\] stand
    for one character, backslash followed by another ASCII letter is an
    error, and backslash followed by anything else is kept as it is. *)

Module Template.

Inductive token : Type :=
| TChar (c : ascii)
| TEsc (c : ascii)   (* backslash followed by [c] *).

Fixpoint tokenize (s : string) : result (list token) :=
  match s with
  | EmptyString => Ok []
  | String c rest =>
      if Ascii.eqb c BSLASH then
        match rest with
        | String d rest' => rmap (cons (TEsc d)) (tokenize rest')
        | EmptyString => Raise (ReError "bad escape (end of pattern)")
        end
      else rmap (cons (TChar c)) (tokenize rest)
  end.

Definition token_text (t : token) : string :=
  match t with
  | TChar c => chr c
  | TEsc c => String BSLASH (chr c)
  end.

Definition digit (c : ascii) : option nat :=
  let n := nat_of_ascii c in
  if (48 <=? n) && (n <=? 57) then Some (n - 48) else None.

Definition octdigit (c : ascii) : option nat :=
  let n := nat_of_ascii c in
  if (48 <=? n) && (n <=? 55) then Some (n - 48) else None.

Definition is_ascii_letter (c : ascii) : bool :=
  let n := nat_of_ascii c in
  ((65 <=? n) && (n <=? 90)) || ((97 <=? n) && (n <=? 122)).

Fixpoint decimal (acc : nat) (s : string) : option nat :=
  match s with
  | EmptyString => Some acc
  | String c s' =>
      match digit c with
      | Some d => decimal (10 * acc + d) s'
      | None => None
      end
  end.

(** The one-character escapes of the template language. *)
Definition escapes (c : ascii) : option ascii :=
  if Ascii.eqb c "a" then Some "007"%char
  else if Ascii.eqb c "b" then Some "008"%char
  else if Ascii.eqb c "f" then Some "012"%char
  else if Ascii.eqb c "n" then Some NEWLINE
  else if Ascii.eqb c "r" then Some "013"%char
  else if Ascii.eqb c "t" then Some "009"%char
  else if Ascii.eqb c "v" then Some "011"%char
  else if Ascii.eqb c BSLASH then Some BSLASH
  else None.

(** [chr(n)] for [n < 256], as UTF-8. *)
Definition utf8_chr (n : nat) : string :=
  if n <? 128 then chr (ascii_of_nat n)
  else String (ascii_of_nat (192 + n / 64)) (chr (ascii_of_nat (128 + n mod 64))).

Inductive part : Type :=
| PLit (s : string)
| PGroup (n : nat).

Definition add_group (ngroups index : nat) (k : result (list part)) : result (list part) :=
  if ngroups <? index then Raise (ReError "invalid group reference")
  else rmap (cons (PGroup index)) k.

Definition add_literal (s : string) (k : result (list part)) : result (list part) :=
  rmap (cons (PLit s)) k.

(** [name] is [Some acc] while the name of a [\g<...>] reference is being
    read.  A name made of ASCII digits is a group number; the patterns here
    have no named groups, so any other name is rejected. *)
Fixpoint parse_tokens (ngroups : nat) (name : option string) (ts : list token)
  : result (list part) :=
  match name with
  | Some acc =>
      match ts with
      | [] => Raise (ReError "missing >, unterminated name")
      | t :: ts' =>
          match t with
          | TChar ">" =>
              if Py.falsy acc then Raise (ReError "missing group name")
              else
                match decimal 0 acc with
                | Some index => add_group ngroups index (parse_tokens ngroups None ts')
                | None => Raise (IndexError "unknown group name")
                end
          | _ => parse_tokens ngroups (Some (acc +:+ token_text t)) ts'
          end
      end
  | None =>
      match ts with
      | [] => Ok []
      | TChar c :: ts' => add_literal (chr c) (parse_tokens ngroups None ts')
      | TEsc c :: ts' =>
          if Ascii.eqb c "g" then
            match ts' with
            | TChar "<" :: ts'' => parse_tokens ngroups (Some EmptyString) ts''
            | _ => Raise (ReError "missing <")
            end
          else if Ascii.eqb c "0" then
            match ts' with
            | TChar d1 :: ts1 =>
                match octdigit d1 with
                | Some o1 =>
                    match ts1 with
                    | TChar d2 :: ts2 =>
                        match octdigit d2 with
                        | Some o2 =>
                            add_literal (utf8_chr (8 * o1 + o2)) (parse_tokens ngroups None ts2)
                        | None => add_literal (utf8_chr o1) (parse_tokens ngroups None ts1)
                        end
                    | _ => add_literal (utf8_chr o1) (parse_tokens ngroups None ts1)
                    end
                | None => add_literal (utf8_chr 0) (parse_tokens ngroups None ts')
                end
            | _ => add_literal (utf8_chr 0) (parse_tokens ngroups None ts')
            end
          else
            match digit c with
            | Some n1 =>
                match ts' with
                | TChar d2 :: ts2 =>
                    match digit d2 with
                    | Some n2 =>
                        match ts2 with
                        | TChar d3 :: ts3 =>
                            match octdigit c, octdigit d2, octdigit d3 with
                            | Some o1, Some o2, Some o3 =>
                                let v := 64 * o1 + 8 * o2 + o3 in
                                if 255 <? v then Raise (ReError "octal escape value outside of range 0-0o377")
                                else add_literal (utf8_chr v) (parse_tokens ngroups None ts3)
                            | _, _, _ => add_group ngroups (10 * n1 + n2) (parse_tokens ngroups None ts2)
                            end
                        | _ => add_group ngroups (10 * n1 + n2) (parse_tokens ngroups None ts2)
                        end
                    | None => add_group ngroups n1 (parse_tokens ngroups None ts')
                    end
                | _ => add_group ngroups n1 (parse_tokens ngroups None ts')
                end
            | None =>
                match escapes c with
                | Some e => add_literal (chr e) (parse_tokens ngroups None ts')
                | None =>
                    if is_ascii_letter c then Raise (ReError "bad escape")
                    else add_literal (String BSLASH (chr c)) (parse_tokens ngroups None ts')
                end
            end
      end
  end.

Definition parse_template (ngroups : nat) (repl : string) : result (list part) :=
  rbind (tokenize repl) (parse_tokens ngroups None).

(** [m.expand(template)] *)
Fixpoint expand (ps : list part) (st : Re.mstate) : string :=
  match ps with
  | [] => EmptyString
  | PLit s :: ps' => s +:+ expand ps' st
  | PGroup n :: ps' => Re.group n st +:+ expand ps' st
  end.

End Template.

Module ReSub.

(** [pattern.groups] *)
Fixpoint ngroups (p : Re.pattern) : nat :=
  match p with
  | [] => 0
  | Re.GOpen _ :: p' => S (ngroups p')
  | _ :: p' => ngroups p'
  end.

Fixpoint sub_from (p : Re.pattern) (ps : list Template.part) (skip : nat) (s : string)
  : string :=
  match skip with
  | S k =>
      match s with
      | String _ s' => sub_from p ps k s'
      | EmptyString => EmptyString
      end
  | O =>
      match Re.match_here p Re.mstate0 s with
      | Some (rest, st) =>
          match s with
          | String c s' =>
              match String.length s - String.length rest with
              | S k => Template.expand ps st +:+ sub_from p ps k s'
              | O => Template.expand ps st +:+ String c (sub_from p ps 0 s')
              end
          | EmptyString => Template.expand ps st
          end
      | None =>
          match s with
          | String c s' => String c (sub_from p ps 0 s')
          | EmptyString => EmptyString
          end
      end
  end.

(** [re.sub(p, repl, s)] with the default count: every match of a pattern
    that matches no empty text is replaced by the expanded template. *)
Definition sub (p : Re.pattern) (repl s : string) : result string :=
  rbind (Template.parse_template (ngroups p) repl) (λ ps, Ok (sub_from p ps 0 s)).

End ReSub.

(** ** [update_version_announcement.py] *)

Module Announce.

(** An entry of the announcements list (the dictionaries with the keys
    version, title and content). *)
Record announcement : Type := Announcement {
  version : string;
  title : string;
  content : string
}.

Definition Q : string := chr DQUOTE.
Definition NL : string := chr NEWLINE.

Fixpoint escape_rust_string (s : string) : string :=
  match s with
  | EmptyString => EmptyString
  | String char s' =>
      (if Ascii.eqb char BSLASH then String BSLASH (chr BSLASH)
       else if Ascii.eqb char DQUOTE then String BSLASH (chr DQUOTE)
       else chr char) +:+ escape_rust_string s'
  end.

(** The escaped content between quotes; [lines[0]] is used when the escaped
    text has a single line. *)
Definition format_content_for_rust (content : string) : string :=
  let escaped := escape_rust_string content in
  let lines := Py.split NEWLINE escaped in
  match lines with
  | [line] => Q +:+ line +:+ Q
  | _ => Q +:+ escaped +:+ Q
  end.

Fixpoint unescape (s : string) : string :=
  match s with
  | EmptyString => EmptyString
  | String c rest =>
      if Ascii.eqb c BSLASH then
        match rest with
        | String d rest' =>
            if Ascii.eqb d "n" then String NEWLINE (unescape rest')
            else if Ascii.eqb d BSLASH then String BSLASH (unescape rest')
            else if Ascii.eqb d DQUOTE then String DQUOTE (unescape rest')
            else String c (unescape rest)
        | EmptyString => String c (unescape rest)
        end
      else String c (unescape rest)
  end.

Definition MARKER : string :=
  "pub const VERSION_ANNOUNCEMENTS: &[VersionAnnouncement] = &[".
Definition CLOSE : string := "];".

(** [pub const VERSION_ANNOUNCEMENTS: &\[VersionAnnouncement\] = &\[(.*?)\];] *)
Definition array_pattern : Re.pattern :=
  [Re.Lit MARKER; Re.GOpen 1; Re.LazyStar Re.Any; Re.GClose 1; Re.Lit CLOSE].

(** [[^}]*name:\s*Q([^Q]+)Q] where Q stands for the double quote; the
    captured text is group [n]. *)
Definition field (name : string) (n : nat) : Re.pattern :=
  [Re.Star (Re.NotChar "}"); Re.Lit name; Re.Star Re.Space; Re.Lit Q;
   Re.GOpen n; Re.Plus (Re.NotChar DQUOTE); Re.GClose n; Re.Lit Q].

(** [VersionAnnouncement\s*\{], then for each of version, title and content
    the [field] pattern, then [[^}]*\}]. *)
Definition ann_pattern : Re.pattern :=
  [Re.Lit "VersionAnnouncement"; Re.Star Re.Space; Re.Lit "{"]
  ++ field "version:" 1 ++ field "title:" 2 ++ field "content:" 3
  ++ [Re.Star (Re.NotChar "}"); Re.Lit "}"].

Definition decode (ann_match : Re.mstate) : announcement :=
  Announcement (unescape (Re.group 1 ann_match))
               (unescape (Re.group 2 ann_match))
               (unescape (Re.group 3 ann_match)).

Definition NOT_FOUND : exn :=
  ValueError "Could not find VERSION_ANNOUNCEMENTS array in file".

(** Returns [(announcements, start_line, end_line)]. *)
Definition parse_announcements (content : string)
  : result (list announcement * nat * nat) :=
  match Re.search array_pattern content with
  | None => Raise NOT_FOUND
  | Some m =>
      let array_content := Re.group 1 (Re.m_state m) in
      let start_line := Py.count NEWLINE (Re.m_pre m) + 1 in
      let end_line := Py.count NEWLINE (Re.m_pre m +:+ Re.m_text m) + 1 in
      Ok (map decode (Re.finditer ann_pattern array_content), start_line, end_line)
  end.

(** The loop with [break]: the first index whose version equals [v]. *)
Definition existing_idx (announcements : list announcement) (v : string) : option nat :=
  fst <$> list_find (λ ann, version ann = v) announcements.

Definition set_title_content (t c : string) (ann : announcement) : announcement :=
  Announcement (version ann) t c.

(** Update existing or add new.  The boolean tells which of the two
    messages is printed: [true] for Updating existing announcement,
    [false] for Adding new announcement. *)
Definition upsert (announcements : list announcement) (v t c : string)
  : list announcement * bool :=
  match existing_idx announcements v with
  | Some idx => (alter (set_title_content t c) idx announcements, true)
  | None => (announcements ++ [Announcement v t c], false)
  end.

(** The two [replace] calls on the content: a newline becomes the three
    characters backslash, backslash, n; then a double quote becomes
    backslash, double quote.  Backslashes are left as they are. *)
Definition format_content (c : string) : string :=
  Py.replace Q (String BSLASH Q)
    (Py.replace NL (String BSLASH (String BSLASH "n")) c).

Definition render_ann (ann : announcement) : list string :=
  [ "    VersionAnnouncement {";
    "        version: " +:+ Q +:+ escape_rust_string (version ann) +:+ Q +:+ ",";
    "        title: " +:+ Q +:+ escape_rust_string (title ann) +:+ Q +:+ ",";
    "        content: " +:+ Q +:+ format_content (content ann) +:+ Q +:+ ",";
    "    }," ].

Definition array_lines (announcements : list announcement) : list string :=
  "    // Add version-specific announcements here"
  :: concat (map render_ann announcements).

(** [(pub const VERSION_ANNOUNCEMENTS: &\[VersionAnnouncement\] = &\[)(.*?)(\];)] *)
Definition sub_pattern : Re.pattern :=
  [Re.GOpen 1; Re.Lit MARKER; Re.GClose 1;
   Re.GOpen 2; Re.LazyStar Re.Any; Re.GClose 2;
   Re.GOpen 3; Re.Lit CLOSE; Re.GClose 3].

(** The raw text backslash-1 backslash-n, the array lines joined by
    newlines, a newline, and the raw text backslash-3. *)
Definition replacement (announcements : list announcement) : string :=
  String BSLASH "1" +:+ String BSLASH "n"
  +:+ Py.join NL (array_lines announcements) +:+ NL +:+ String BSLASH "3".

(** Returns the printed choice (see [upsert]) with the new file content. *)
Definition update_announcement (content v t announcement_content : string)
  : result (bool * string) :=
  rbind (parse_announcements content) (λ '(announcements, _, _),
    let '(announcements', was_update) := upsert announcements v t announcement_content in
    rbind (ReSub.sub sub_pattern (replacement announcements') content) (λ new_content,
      Ok (was_update, new_content))).

(** The two-character text backslash, n. *)
Definition BACKSLASH_N : string := String BSLASH "n".

(** *** Command line ([main])

    [isfile] gives the text of the file a path names, or [None] when
    [os.path.isfile] is false for it.  The interactive mode, which reads its
    three values from the terminal, is not followed further. *)
Inductive cli : Type :=
| Interactive
| Run (v t c : string)
| Exit1.

Definition check_required (v t c : string) : cli :=
  if Py.falsy v || Py.falsy t || Py.falsy c then Exit1 else Run v t c.

(** [args.remove("--dry-run")]: the first occurrence goes. *)
Fixpoint remove_first (x : string) (args : list string) : list string :=
  match args with
  | [] => []
  | a :: args' => if String.eqb a x then args' else a :: remove_first x args'
  end.

Definition read_args (isfile : string → option string) (argv : list string) : cli :=
  let args := remove_first "--dry-run" argv in
  match args with
  | [] => Interactive
  | [v; t; content_arg] =>
      match isfile content_arg with
      | Some text => check_required v t text
      | None =>
          check_required v t (Py.replace BACKSLASH_N NL content_arg)
      end
  | [v; t; flag; content_file] =>
      if String.eqb flag "--file" then
        match isfile content_file with
        | Some text => check_required v t text
        | None => Exit1
        end
      else Exit1
  | _ => Exit1
  end.

End Announce.

(** ** [check_translation_keys.py] *)

Module Locale.

(** A value loaded from a locale file: a mapping (its entries in file
    order), a list, or any other value (text, number, boolean, null), kept
    as its text.  Keys are strings. *)
#[local] Unset Elimination Schemes.
Inductive yaml : Type :=
| YScalar (s : string)
| YList (l : list yaml)
| YDict (d : list (string * yaml)).
#[local] Set Elimination Schemes.

(** [dict(items)]: a later item with the same key replaces the value. *)
Definition py_dict (items : list (string * yaml)) : gmap string yaml :=
  foldl (λ m kv, <[kv.1 := kv.2]> m) ∅ items.

(** The f-string of the loop: the key itself under an empty (falsy) parent
    key, otherwise parent, separator, key. *)
Definition new_key (parent_key sep k : string) : string :=
  if Py.falsy parent_key then k else parent_key +:+ sep +:+ k.

(** The items one entry [(k, v)] of the loop adds: those of the flattened
    sub-dictionary when [v] is a dictionary, the entry itself under its new
    key otherwise (the list branch and the last branch add the same). *)
Fixpoint entry_items (parent_key sep k : string) (v : yaml) {struct v}
  : list (string * yaml) :=
  let nk := new_key parent_key sep k in
  match v with
  | YDict d =>
      map_to_list
        (py_dict
           ((fix loop (d : list (string * yaml)) : list (string * yaml) :=
               match d with
               | [] => []
               | (k', v') :: d' => entry_items nk sep k' v' ++ loop d'
               end) d))
  | YList _ => [(nk, v)]
  | YScalar _ => [(nk, v)]
  end.

Fixpoint loop_items (parent_key sep : string) (d : list (string * yaml))
  : list (string * yaml) :=
  match d with
  | [] => []
  | (k, v) :: d' => entry_items parent_key sep k v ++ loop_items parent_key sep d'
  end.

Definition flatten_dict (d : list (string * yaml)) (parent_key sep : string)
  : gmap string yaml :=
  py_dict (loop_items parent_key sep d).

(** [sorted(keys)]: a stable sort by the order on strings. *)
Definition sorted (l : list string) : list string := merge_sort String.le l.

Definition keys (m : gmap string yaml) : list string := (map_to_list m).*1.

(** [key not in m] *)
Definition absent (m : gmap string yaml) (key : string) : Prop := m !! key = None.

Global Instance absent_dec m key : Decision (absent m key).
Proof. unfold absent. destruct (m !! key); [right | left]; congruence. Defined.

(** Keys in English but not in target. *)
Definition missing (en_flat target_flat : gmap string yaml) : list string :=
  filter (absent target_flat) (sorted (keys en_flat)).

(** Keys in target but not in English. *)
Definition extra (en_flat target_flat : gmap string yaml) : list string :=
  filter (absent en_flat) (sorted (keys target_flat)).

(** The comparison [main] makes of the two app sections. *)
Definition compare_locales (en_app target_app : list (string * yaml))
  : list string * list string :=
  let en_flat := flatten_dict en_app "" "." in
  let target_flat := flatten_dict target_app "" "." in
  (missing en_flat target_flat, extra en_flat target_flat).

End Locale.

(** ** [update_version_announcement.py]: the version of Cargo.toml and [main] *)

Module Cargo.

(** [version\s*=\s*Q([^Q]+)Q], where Q stands for the double quote. *)
Definition version_pattern : Re.pattern :=
  [Re.Lit "version"; Re.Star Re.Space; Re.Lit "="; Re.Star Re.Space; Re.Lit Announce.Q;
   Re.GOpen 1; Re.Plus (Re.NotChar DQUOTE); Re.GClose 1; Re.Lit Announce.Q].

(** [cargo_toml] is the text of Cargo.toml, or [None] when the file does not
    exist or cannot be read (the function then returns [None], after a warning
    in the second case). *)
Definition get_version_from_cargo_toml (cargo_toml : option string) : option string :=
  match cargo_toml with
  | None => None
  | Some content =>
      match Re.search version_pattern content with
      | Some m => Some (Re.group 1 (Re.m_state m))
      | None => None
      end
  end.

End Cargo.

Module AnnounceMain.
Import Announce.




End AnnounceMain.

(** ** [convert_to_svg.py]: the extraction of the diagram source *)

Module Mermaid.

(** The opening fence with its line break, and the line break with the
    closing fence. *)
Definition start_marker : string := "```mermaid" +:+ chr NEWLINE.
Definition end_marker : string := chr NEWLINE +:+ "```".

Definition NOT_FOUND : exn := ValueError "Mermaid code block not found".
Definition NOT_CLOSED : exn := ValueError "Mermaid code block not properly closed".

(** [content] is the text read from the markdown file. *)
Definition extract_mermaid_code (content : string) : result string :=
  match Py.find start_marker content with
  | None => Raise NOT_FOUND
  | Some idx =>
      let start_idx := idx + String.length start_marker in
      match Py.find_at end_marker start_idx content with
      | None => Raise NOT_CLOSED
      | Some end_idx => Ok (Py.slice start_idx end_idx content)
      end
  end.

End Mermaid.

(** ** [check_translation_keys.py]: the comparison made by [main] *)

Module LocaleMain.
Import Locale.





End LocaleMain.

(** ** Sample documents *)

Module Samples.
Import Announce.

(** A record block in the layout the script writes; the three field texts
    are given as they stand in the file, between the quotes. *)
Definition block (v t c : string) : string :=
  "    VersionAnnouncement {" +:+ NL
  +:+ "        version: " +:+ Q +:+ v +:+ Q +:+ "," +:+ NL
  +:+ "        title: " +:+ Q +:+ t +:+ Q +:+ "," +:+ NL
  +:+ "        content: " +:+ Q +:+ c +:+ Q +:+ "," +:+ NL
  +:+ "    }," +:+ NL.


Definition HEADER : string := "    // Add version-specific announcements here" +:+ NL.

(** A source file with one announcements array holding [body]. *)
Definition doc_of (body : string) : string :=
  "use crate::VersionAnnouncement;" +:+ NL
  +:+ MARKER +:+ NL +:+ body +:+ CLOSE +:+ NL
  +:+ "fn main() {}" +:+ NL.

Definition doc_two_records : string :=
  doc_of (HEADER +:+ block "0.5.0" "Old" "first" +:+ block "0.6.0" "T6" "six").

Definition doc_empty_array : string := doc_of "".

Definition doc_no_marker : string := "fn main() {}" +:+ NL.

(** The array is opened and never closed. *)
Definition doc_unterminated : string :=
  "use crate::VersionAnnouncement;" +:+ NL
  +:+ MARKER +:+ NL +:+ block "0.5.0" "Old" "first"
  +:+ "fn main() {}" +:+ NL.




(** A record whose content holds an escaped backslash before the letter n,
    as in a path. *)
Definition doc_escaped_backslash : string :=
  doc_of (HEADER +:+ block "0.5.0" "Paths" ("C:" +:+ String BSLASH BACKSLASH_N +:+ "ew")).

(** The key a, double quote, b. *)
Definition key_with_quote : string := "a" +:+ Q +:+ "b".

End Samples.

(** ** Auxiliary notions used in the statements and proofs *)

Module Aux.

Definition starts_with_n (s : string) : bool :=
  match s with
  | String c _ => Ascii.eqb c "n"
  | EmptyString => false
  end.

Definition tail_s (s : string) : string :=
  match s with
  | String _ s' => s'
  | EmptyString => EmptyString
  end.

(** The text before and the text after the first occurrence of [sep]. *)
Fixpoint split_first (sep s : string) : option (string * string) :=
  match Py.strip_prefix sep s with
  | Some r => Some (EmptyString, r)
  | None =>
      match s with
      | String c s' =>
          match split_first sep s' with
          | Some (a, r) => Some (String c a, r)
          | None => None
          end
      | EmptyString => None
      end
  end.

(** The match object of a document in which the array is found, and the
    new content of a successful update. *)
Definition found (doc : string) : Re.mobj :=
  default (Re.MObj EmptyString EmptyString EmptyString Re.mstate0)
          (Re.search Announce.array_pattern doc).

Definition new_content (doc v t c : string) : string :=
  match Announce.update_announcement doc v t c with
  | Ok (_, out) => out
  | Raise _ => EmptyString
  end.

(** Each character of [s] replaced by the text [f] gives for it. *)
Fixpoint smap (f : ascii → string) (s : string) : string :=
  match s with
  | EmptyString => EmptyString
  | String c s' => f c +:+ smap f s'
  end.

(** What the file holds for one character of a field without backslashes:
    backslash, quote for a quote; for a line break, backslash, n in a content
    and the line break itself in a version or title. *)
Definition stored_char (in_content : bool) (c : ascii) : string :=
  if Ascii.eqb c DQUOTE then String BSLASH (chr DQUOTE)
  else if Ascii.eqb c NEWLINE && in_content then Announce.BACKSLASH_N
  else chr c.

(** Texts in which every backslash starts one of the pairs backslash,
    backslash and backslash, quote. *)
Inductive safe : string → Prop :=
| safe_nil : safe EmptyString
| safe_char (c : ascii) (r : string) : c ≠ BSLASH → safe r → safe (String c r)
| safe_bslash (r : string) : safe r → safe (String BSLASH (String BSLASH r))
| safe_quote (r : string) : safe r → safe (String BSLASH (String DQUOTE r)).

(** The template expansion of such a text: each doubled backslash becomes a
    single one, everything else stays. *)
Fixpoint texp (s : string) : string :=
  match s with
  | EmptyString => EmptyString
  | String c r =>
      if Ascii.eqb c BSLASH then
        match r with
        | String d r' =>
            if Ascii.eqb d BSLASH then String BSLASH (texp r')
            else String c (String d (texp r'))
        | EmptyString => String c EmptyString
        end
      else String c (texp r)
  end.

(** Every character of [s] passes the test [f]. *)
Fixpoint forallb_s (f : ascii → bool) (s : string) : bool :=
  match s with
  | EmptyString => true
  | String c s' => f c && forallb_s f s'
  end.

(** [s] does not go on with a character that passes the test [f]. *)
Definition stops (f : ascii → bool) (s : string) : bool :=
  match s with
  | EmptyString => true
  | String c _ => negb (f c)
  end.

(** The text a quoted group captures: not empty, without a double quote. *)
Definition quoted (g : string) : Prop := g ≠ "" ∧ Py.count DQUOTE g = 0.

(** The characters that make a replacement template fail after a
    backslash: the ASCII letters that are no escape of the template language
    and do not start a group reference. *)
Definition bad_escape (d : ascii) : bool :=
  Template.is_ascii_letter d && negb (Ascii.eqb d "g")
  && match Template.escapes d with Some _ => false | None => true end.

(** The character of the code fences. *)
Definition BACKTICK : ascii := "`"%char.


(** Induction on locale values, through the entries of mappings. *)
Fixpoint yaml_nested_ind (P : Locale.yaml → Prop)
    (Hs : ∀ s, P (Locale.YScalar s))
    (Hl : ∀ l, P (Locale.YList l))
    (Hd : ∀ d, Forall (λ kv, P kv.2) d → P (Locale.YDict d))
    (v : Locale.yaml) {struct v} : P v :=
  match v with
  | Locale.YScalar s => Hs s
  | Locale.YList l => Hl l
  | Locale.YDict d =>
      Hd d ((fix go (d : list (string * Locale.yaml)) : Forall (λ kv, P kv.2) d :=
               match d with
               | [] => List.Forall_nil (λ kv, P kv.2)
               | (k, v') :: d' =>
                   @List.Forall_cons _ (λ kv, P kv.2) (k, v') d'
                     (yaml_nested_ind P Hs Hl Hd v') (go d')
               end) d)
  end.

(** [leaf_of v path w]: following the keys of [path] from [v] through nested
    mappings ends at [w], which is not a mapping (a list counts as a leaf,
    whatever it holds). *)
Inductive leaf_of : Locale.yaml → list string → Locale.yaml → Prop :=
| leaf_scalar (s : string) : leaf_of (Locale.YScalar s) [] (Locale.YScalar s)
| leaf_list (l : list Locale.yaml) : leaf_of (Locale.YList l) [] (Locale.YList l)
| leaf_dict (d : list (string * Locale.yaml)) (k : string) (v0 : Locale.yaml)
    (path : list string) (w : Locale.yaml) :
    (k, v0) ∈ d → leaf_of v0 path w → leaf_of (Locale.YDict d) (k :: path) w.

(** The key built for the path [path] below the key [p]. *)
Fixpoint dotted (sep p : string) (path : list string) : string :=
  match path with
  | [] => p
  | k :: path' => dotted sep (Locale.new_key p sep k) path'
  end.

End Aux.
Import Aux.

(** * Properties *)

(** ** Facts about strings *)

Section StringFacts.

Lemma app_cons_s (x : ascii) (a b : string) : String x a +:+ b = String x (a +:+ b).
Proof. reflexivity. Qed.

Lemma app_nil_l_s (b : string) : "" +:+ b = b.
Proof. reflexivity. Qed.

Lemma app_assoc_s (a b c : string) : (a +:+ b) +:+ c = a +:+ (b +:+ c).
Proof.
  induction a as [|x a IH]; [reflexivity |].
  by rewrite !app_cons_s, IH.
Qed.

Lemma app_nil_r_s (a : string) : a +:+ "" = a.
Proof.
  induction a as [|x a IH]; [reflexivity |].
  by rewrite app_cons_s, IH.
Qed.

Lemma length_app_s (a b : string) :
  String.length (a +:+ b) = String.length a + String.length b.
Proof.
  induction a as [|x a IH]; [reflexivity |].
  rewrite app_cons_s. simpl. by rewrite IH.
Qed.

Lemma strip_prefix_app (p s : string) : Py.strip_prefix p (p +:+ s) = Some s.
Proof.
  induction p as [|x p IH]; [reflexivity |].
  rewrite app_cons_s. simpl. by rewrite Ascii.eqb_refl.
Qed.

Lemma strip_prefix_Some (p s r : string) :
  Py.strip_prefix p s = Some r → s = p +:+ r.
Proof.
  revert s. induction p as [|x p IH]; intros s H; simpl in *.
  - by injection H as ->.
  - destruct s as [|y s]; [discriminate |].
    destruct (Ascii.eqb_spec x y) as [->|]; [| discriminate].
    by rewrite app_cons_s, (IH _ H).
Qed.

Lemma take_app_length (a b : string) : Py.take (String.length a) (a +:+ b) = a.
Proof.
  induction a as [|x a IH]; [by destruct b |].
  rewrite app_cons_s. simpl. by rewrite IH.
Qed.

Lemma take_diff_s (a b : string) :
  Py.take (String.length (a +:+ b) - String.length b) (a +:+ b) = a.
Proof. rewrite length_app_s, Nat.add_sub. apply take_app_length. Qed.

Lemma drop_app_length (a b : string) : Py.drop (String.length a) (a +:+ b) = b.
Proof. induction a as [|x a IH]; [reflexivity | exact IH]. Qed.

Lemma take_drop_s (n : nat) (s : string) : Py.take n s +:+ Py.drop n s = s.
Proof.
  revert s. induction n as [|n IH]; intros s; [reflexivity |].
  destruct s as [|c s]; [reflexivity |].
  simpl. by rewrite app_cons_s, IH.
Qed.

Lemma length_drop_s (n : nat) (s : string) :
  String.length (Py.drop n s) = String.length s - n.
Proof.
  revert s. induction n as [|n IH]; intros s; simpl; [lia |].
  destruct s as [|c s]; simpl; [reflexivity | apply IH].
Qed.

Lemma drop_drop_s (n k : nat) (s : string) : Py.drop n (Py.drop k s) = Py.drop (k + n) s.
Proof.
  revert s. induction k as [|k IH]; intros s; simpl; [reflexivity |].
  destruct s as [|c s]; [by destruct n | apply IH].
Qed.

Lemma drop_all_s (n : nat) (s : string) : String.length s ≤ n → Py.drop n s = "".
Proof.
  revert s. induction n as [|n IH]; intros s H; destruct s as [|c s]; simpl in *;
    try reflexivity; [lia | apply IH; lia].
Qed.

End StringFacts.

(** ** The codec: [escape_rust_string] and [unescape] *)

Section Codec.
Import Announce.

(** Decoding undoes the escaping of versions and titles. *)
Lemma unescape_escape_rust_string (s : string) : unescape (escape_rust_string s) = s.
Proof.
  induction s as [|c s IH]; [reflexivity |].
  cbn [escape_rust_string].
  destruct (Ascii.eqb_spec c BSLASH) as [->|Hb].
  - unfold chr. rewrite !app_cons_s, app_nil_l_s. cbn. by rewrite IH.
  - destruct (Ascii.eqb_spec c DQUOTE) as [->|Hq].
    + unfold chr. rewrite !app_cons_s, app_nil_l_s. cbn. by rewrite IH.
    + unfold chr. rewrite app_cons_s, app_nil_l_s. cbn [unescape].
      destruct (Ascii.eqb_spec c BSLASH); [contradiction |].
      by rewrite IH.
Qed.

End Codec.

(** ** Command line: the content argument *)

Section ContentArgument.
Import Announce.

Lemma strip_backslash_n (s : string) :
  Py.strip_prefix BACKSLASH_N s =
    match s with
    | String c s' =>
        if Ascii.eqb c BSLASH && starts_with_n s' then Some (tail_s s') else None
    | EmptyString => None
    end.
Proof.
  destruct s as [|c s]; [reflexivity |].
  unfold BACKSLASH_N. cbn [Py.strip_prefix]. rewrite (Ascii.eqb_sym c).
  destruct (Ascii.eqb BSLASH c); [| reflexivity].
  destruct s as [|d s]; [reflexivity |].
  cbn [Py.strip_prefix starts_with_n tail_s andb]. rewrite (Ascii.eqb_sym d).
  by destruct (Ascii.eqb "n" d).
Qed.

Lemma replace_backslash_n_cons (c : ascii) (s : string) :
  Py.replace BACKSLASH_N NL (String c s) =
    if Ascii.eqb c BSLASH && starts_with_n s
    then String NEWLINE (Py.replace BACKSLASH_N NL (tail_s s))
    else String c (Py.replace BACKSLASH_N NL s).
Proof.
  unfold Py.replace. cbn [Py.replace_from].
  rewrite strip_backslash_n.
  destruct (Ascii.eqb c BSLASH && starts_with_n s) eqn:E; [| reflexivity].
  destruct s as [|d s]; [by rewrite andb_false_r in E |].
  reflexivity.
Qed.

Lemma starts_with_n_replace (s : string) :
  starts_with_n (Py.replace BACKSLASH_N NL s) = starts_with_n s.
Proof.
  destruct s as [|c s]; [reflexivity |].
  rewrite replace_backslash_n_cons.
  destruct (Ascii.eqb_spec c BSLASH) as [->|]; [| reflexivity].
  by destruct (starts_with_n s).
Qed.

Lemma no_backslash_n_upto (n : nat) (s : string) :
  String.length s ≤ n →
  Py.contains BACKSLASH_N (Py.replace BACKSLASH_N NL s) = false.
Proof.
  revert s. induction n as [|n IH]; intros s Hn.
  - destruct s; [reflexivity | simpl in Hn; lia].
  - destruct s as [|c s]; [reflexivity |].
    simpl in Hn. rewrite replace_backslash_n_cons.
    destruct (Ascii.eqb c BSLASH && starts_with_n s) eqn:E.
    + destruct s as [|d s]; [by rewrite andb_false_r in E |].
      cbn [tail_s Py.contains]. rewrite strip_backslash_n. cbn.
      apply IH. simpl in Hn. lia.
    + cbn [Py.contains]. rewrite strip_backslash_n.
      rewrite starts_with_n_replace, E.
      apply IH. lia.
Qed.

Lemma replace_has_no_backslash_n (s : string) :
  Py.contains BACKSLASH_N (Py.replace BACKSLASH_N NL s) = false.
Proof. by apply (no_backslash_n_upto (String.length s)). Qed.

(** C10. In three-argument mode, when the content argument names no
    existing file, the content handed on is the argument with every
    backslash-n pair replaced by a newline, and it contains no backslash-n
    pair any more. *)
Theorem C10_content_argument_has_no_backslash_n
    (isfile : string → option string) (argv : list string) (v t c v' t' c' : string) :
  remove_first "--dry-run" argv = [v; t; c] →
  isfile c = None →
  read_args isfile argv = Run v' t' c' →
  c' = Py.replace BACKSLASH_N NL c ∧ Py.contains BACKSLASH_N c' = false.
Proof.
  intros Hargs Hfile Hrun.
  unfold read_args in Hrun. rewrite Hargs, Hfile in Hrun.
  unfold check_required in Hrun.
  destruct (Py.falsy v || Py.falsy t || Py.falsy _); [discriminate |].
  injection Hrun as _ _ <-.
  split; [reflexivity | apply replace_has_no_backslash_n].
Qed.

Lemma C10_witness :
  let c := "one" +:+ BACKSLASH_N +:+ "two" +:+ String BSLASH BACKSLASH_N in
  let c' := "one" +:+ NL +:+ "two" +:+ String BSLASH NL in
  c' = Py.replace BACKSLASH_N NL c ∧ Py.contains BACKSLASH_N c' = false.
Proof.
  intros c c'.
  apply (C10_content_argument_has_no_backslash_n
           (λ _, None) ["--dry-run"; "0.6.0"; "Welcome"; c] "0.6.0" "Welcome" c
           "0.6.0" "Welcome" c'); reflexivity.
Defined.

End ContentArgument.

(** ** Upsert *)

Section Upsert.
Import Announce.

Lemma alter_as_insert {A : Type} (f : A → A) (l : list A) (i : nat) (x : A) :
  l !! i = Some x → alter f i l = <[i := f x]> l.
Proof.
  revert i. induction l as [|y l IH]; intros [|i] H; simpl in *; try discriminate.
  - by injection H as ->.
  - f_equal. by apply IH.
Qed.

Lemma existing_idx_Some (anns : list announcement) (v : string) (i : nat) :
  existing_idx anns v = Some i ↔
  ∃ r, anns !! i = Some r ∧ version r = v
       ∧ ∀ j r', anns !! j = Some r' → j < i → version r' ≠ v.
Proof.
  unfold existing_idx. split.
  - destruct (list_find _ anns) as [[i' r]|] eqn:E; [| discriminate].
    intros [= <-]. apply list_find_Some in E. exists r. exact E.
  - intros (r & Hr & Hv & Hfirst).
    assert (list_find (λ ann, version ann = v) anns = Some (i, r)) as ->; [| reflexivity].
    apply list_find_Some. auto.
Qed.

Lemma existing_idx_None (anns : list announcement) (v : string) :
  existing_idx anns v = None ↔ ∀ r, r ∈ anns → version r ≠ v.
Proof.
  unfold existing_idx. rewrite fmap_None, list_find_None, Forall_forall. reflexivity.
Qed.

(** The updated list when record [i] is the first with the key. *)
Lemma upsert_found (anns : list announcement) (v t c : string) (i : nat) (r : announcement) :
  anns !! i = Some r → version r = v →
  (∀ j r', anns !! j = Some r' → j < i → version r' ≠ v) →
  upsert anns v t c = (<[i := Announcement v t c]> anns, true).
Proof.
  intros Hr Hv Hfirst. unfold upsert.
  assert (existing_idx anns v = Some i) as -> by (apply existing_idx_Some; eauto).
  rewrite (alter_as_insert _ _ _ _ Hr). unfold set_title_content. by rewrite Hv.
Qed.

Lemma upsert_not_found (anns : list announcement) (v t c : string) :
  (∀ r, r ∈ anns → version r ≠ v) →
  upsert anns v t c = (anns ++ [Announcement v t c], false).
Proof.
  intros H. unfold upsert. by apply existing_idx_None in H as ->.
Qed.

(** C7. If some record has the key, the first such record, at position
    [i], gets the new title and content and keeps its key and position, every
    other position is untouched, and the update is reported; if no record
    has the key, a record with the key, title and content is appended after
    the last one and an insertion is reported. *)
Theorem C7_upsert (anns : list announcement) (v t c : string) :
  ((∃ r, r ∈ anns ∧ version r = v) →
   ∃ i r, anns !! i = Some r ∧ version r = v
          ∧ (∀ j r', anns !! j = Some r' → j < i → version r' ≠ v)
          ∧ upsert anns v t c = (<[i := Announcement (version r) t c]> anns, true)
          ∧ length (upsert anns v t c).1 = length anns
          ∧ (upsert anns v t c).1 !! i = Some (Announcement v t c)
          ∧ ∀ j, j ≠ i → (upsert anns v t c).1 !! j = anns !! j)
  ∧ ((∀ r, r ∈ anns → version r ≠ v) →
     upsert anns v t c = (anns ++ [Announcement v t c], false)).
Proof.
  split; [| apply upsert_not_found].
  intros (r0 & Hin & Hv0).
  destruct (existing_idx anns v) as [i|] eqn:E.
  - apply existing_idx_Some in E as (r & Hr & Hv & Hfirst).
    exists i, r. rewrite (upsert_found _ _ t c _ _ Hr Hv Hfirst). simpl.
    split_and!; [done | done | done | by rewrite Hv | apply length_insert | |].
    + apply list_lookup_insert_eq. by eapply lookup_lt_Some.
    + intros j Hj. by apply list_lookup_insert_ne.
  - exfalso. rewrite existing_idx_None in E. by apply (E r0).
Qed.

Lemma C7_witness :
  let anns := [Announcement "0.5.0" "Old" "first"; Announcement "0.6.0" "T6" "six"] in
  (∃ i r, anns !! i = Some r ∧ version r = "0.6.0"
          ∧ (∀ j r', anns !! j = Some r' → j < i → version r' ≠ "0.6.0")
          ∧ upsert anns "0.6.0" "New" "text"
              = (<[i := Announcement (version r) "New" "text"]> anns, true)
          ∧ length (upsert anns "0.6.0" "New" "text").1 = length anns
          ∧ (upsert anns "0.6.0" "New" "text").1 !! i
              = Some (Announcement "0.6.0" "New" "text")
          ∧ ∀ j, j ≠ i → (upsert anns "0.6.0" "New" "text").1 !! j = anns !! j)
  ∧ upsert anns "0.7.0" "Hi" "Hello" = (anns ++ [Announcement "0.7.0" "Hi" "Hello"], false).
Proof.
  intros anns. split.
  - apply (proj1 (C7_upsert anns "0.6.0" "New" "text")).
    exists (Announcement "0.6.0" "T6" "six"). split; [| reflexivity].
    apply list_elem_of_lookup. by exists 1.
  - apply (proj2 (C7_upsert anns "0.7.0" "Hi" "Hello")).
    intros r Hr. repeat (apply elem_of_cons in Hr as [-> | Hr]); try discriminate.
    by apply elem_of_nil in Hr.
Defined.

End Upsert.

(** ** The matcher on the two array patterns *)

Section Matcher.
Import Announce.

Lemma match_here_lit (l : string) (p : Re.pattern) (st : Re.mstate) (s : string) :
  Re.match_here (Re.Lit l :: p) st s =
    match Py.strip_prefix l s with
    | Some s' => Re.match_here p st s'
    | None => None
    end.
Proof. reflexivity. Qed.

Lemma match_here_lazy_any (p : Re.pattern) (st : Re.mstate) (s : string) :
  Re.match_here (Re.LazyStar Re.Any :: p) st s =
    match Re.match_here p st s with
    | Some r => Some r
    | None =>
        match s with
        | String _ s' => Re.match_here (Re.LazyStar Re.Any :: p) st s'
        | EmptyString => None
        end
    end.
Proof. destruct s; reflexivity. Qed.

Lemma split_first_Some (sep s a r : string) :
  split_first sep s = Some (a, r) → s = a +:+ sep +:+ r.
Proof.
  revert a. induction s as [|c s IH]; intros a; cbn [split_first].
  - destruct (Py.strip_prefix sep "") eqn:E; [| discriminate].
    intros [= <- <-]. by apply strip_prefix_Some in E.
  - destruct (Py.strip_prefix sep (String c s)) eqn:E.
    + intros [= <- <-]. by apply strip_prefix_Some in E.
    + destruct (split_first sep s) as [[a' r']|]; [| discriminate].
      intros [= <- <-]. by rewrite app_cons_s, <- (IH a').
Qed.

Lemma split_first_None (sep s : string) :
  split_first sep s = None ↔ Py.contains sep s = false.
Proof.
  induction s as [|c s IH]; cbn [split_first Py.contains].
  - by destruct (Py.strip_prefix sep "").
  - destruct (Py.strip_prefix sep (String c s)); [done |].
    rewrite <- IH. by destruct (split_first sep s) as [[??]|].
Qed.

(** A lazy [.*?] followed by a pattern that only succeeds on the separator
    stops at the first separator. *)
Lemma lazy_any_stops_at_first (p : Re.pattern) (st : Re.mstate) (sep : string)
    (F : string → string → Re.mstate) :
  (∀ s, Re.match_here p st s =
        match Py.strip_prefix sep s with
        | Some r => Some (r, F s r)
        | None => None
        end) →
  ∀ s, Re.match_here (Re.LazyStar Re.Any :: p) st s =
       match split_first sep s with
       | Some (a, r) => Some (r, F (sep +:+ r) r)
       | None => None
       end.
Proof.
  intros Hp s. induction s as [|c s IH];
    rewrite match_here_lazy_any, Hp; cbn [split_first].
  - destruct (Py.strip_prefix sep "") eqn:E; [| reflexivity].
    by rewrite <- (strip_prefix_Some _ _ _ E).
  - destruct (Py.strip_prefix sep (String c s)) eqn:E.
    + by rewrite <- (strip_prefix_Some _ _ _ E).
    + rewrite IH. by destruct (split_first sep s) as [[??]|].
Qed.

(** The array pattern matches at the start of [s] exactly when [s] starts
    with the marker and a closing token follows; the group is the text
    between the marker and the first closing token. *)
Lemma match_array_pattern (s : string) :
  Re.match_here array_pattern Re.mstate0 s =
    match Py.strip_prefix MARKER s with
    | Some s1 =>
        match split_first CLOSE s1 with
        | Some (body, rest) => Some (rest, Re.MState [(1, s1)] [(1, body)])
        | None => None
        end
    | None => None
    end.
Proof.
  unfold array_pattern. rewrite match_here_lit.
  destruct (Py.strip_prefix MARKER s) as [s1|]; [| reflexivity].
  change (Re.match_here (Re.GOpen 1 :: ?p) ?st s1)
    with (Re.match_here p (Re.open_group 1 s1 st) s1).
  rewrite (lazy_any_stops_at_first _ _ CLOSE
             (λ s _, Re.close_group 1 s (Re.open_group 1 s1 Re.mstate0))).
  - destruct (split_first CLOSE s1) as [[body rest]|] eqn:E; [| reflexivity].
    apply split_first_Some in E. do 2 f_equal.
    unfold Re.close_group, Re.open_group. cbn [Re.opened Re.groups Re.assoc Nat.eqb].
    subst s1. by rewrite take_diff_s.
  - intros s'. cbn [Re.match_here]. by destruct (Py.strip_prefix CLOSE s').
Qed.

(** The three-group pattern of the substitution matches the same texts. *)
Lemma match_sub_pattern (s : string) :
  Re.match_here sub_pattern Re.mstate0 s =
    match Py.strip_prefix MARKER s with
    | Some s1 =>
        match split_first CLOSE s1 with
        | Some (body, rest) =>
            Some (rest,
                  Re.MState [(3, CLOSE +:+ rest); (2, s1); (1, s)]
                            [(3, CLOSE); (2, body); (1, MARKER)])
        | None => None
        end
    | None => None
    end.
Proof.
  unfold sub_pattern.
  change (Re.match_here (Re.GOpen 1 :: ?p) ?st s)
    with (Re.match_here p (Re.open_group 1 s st) s).
  rewrite match_here_lit.
  destruct (Py.strip_prefix MARKER s) as [s1|] eqn:EM; [| reflexivity].
  apply strip_prefix_Some in EM.
  change (Re.match_here (Re.GClose 1 :: Re.GOpen 2 :: ?p) ?st s1)
    with (Re.match_here p (Re.open_group 2 s1 (Re.close_group 1 s1 st)) s1).
  set (st2 := Re.open_group 2 s1 _).
  rewrite (lazy_any_stops_at_first _ _ CLOSE
             (λ s' r, Re.close_group 3 r (Re.open_group 3 s' (Re.close_group 2 s' st2)))).
  - destruct (split_first CLOSE s1) as [[body rest]|] eqn:E; [| reflexivity].
    apply split_first_Some in E. do 2 f_equal.
    subst st2.
    unfold Re.close_group, Re.open_group.
    cbn [Re.opened Re.groups Re.assoc Nat.eqb Re.mstate0].
    subst s s1. by rewrite !take_diff_s.
  - intros s'. cbn [Re.match_here]. by destruct (Py.strip_prefix CLOSE s').
Qed.

End Matcher.

(** ** Search and substitution *)

Section SearchAndSub.
Import Announce.

Lemma search_from_Some (p : Re.pattern) (off : nat) (s : string)
    (off' : nat) (rest : string) (st : Re.mstate) :
  Re.search_from p off s = Some (off', rest, st) →
  ∃ k, off' = off + k
       ∧ Re.match_here p Re.mstate0 (Py.drop k s) = Some (rest, st)
       ∧ ∀ j, j < k → Re.match_here p Re.mstate0 (Py.drop j s) = None.
Proof.
  revert off. induction s as [|c s IH]; intros off; cbn [Re.search_from].
  - destruct (Re.match_here p Re.mstate0 "") as [[r st0]|] eqn:E; [| discriminate].
    intros [= <- <- <-]. exists 0. split_and!; [lia | done | lia].
  - destruct (Re.match_here p Re.mstate0 (String c s)) as [[r st0]|] eqn:E.
    + intros [= <- <- <-]. exists 0. split_and!; [lia | done | lia].
    + intros H. apply IH in H as (k & -> & Hk & Hlt).
      exists (S k). split_and!; [lia | done |].
      intros [|j] Hj; [done |]. apply Hlt. lia.
Qed.

Lemma search_from_None (p : Re.pattern) (off : nat) (s : string) :
  Re.search_from p off s = None ↔
  ∀ j, Re.match_here p Re.mstate0 (Py.drop j s) = None.
Proof.
  revert off. induction s as [|c s IH]; intros off; cbn [Re.search_from].
  - destruct (Re.match_here p Re.mstate0 "") as [[r st0]|] eqn:E.
    + split; [discriminate |]. intros H. specialize (H 0). simpl in H. congruence.
    + split; [| done]. intros _ [|j]; exact E.
  - destruct (Re.match_here p Re.mstate0 (String c s)) as [[r st0]|] eqn:E.
    + split; [discriminate |]. intros H. specialize (H 0). simpl in H. congruence.
    + rewrite IH. split.
      * intros H [|j]; [exact E | apply H].
      * intros H j. apply (H (S j)).
Qed.

Lemma sub_from_skip (p : Re.pattern) (ps : list Template.part) (k : nat) (s : string) :
  k ≤ String.length s →
  ReSub.sub_from p ps k s = ReSub.sub_from p ps 0 (Py.drop k s).
Proof.
  revert s. induction k as [|k IH]; intros s Hk; [reflexivity |].
  destruct s as [|c s]; simpl in Hk; [lia |].
  cbn [ReSub.sub_from Py.drop]. apply IH. lia.
Qed.

Lemma sub_from_no_match (p : Re.pattern) (ps : list Template.part) (s : string) :
  (∀ j, Re.match_here p Re.mstate0 (Py.drop j s) = None) →
  ReSub.sub_from p ps 0 s = s.
Proof.
  induction s as [|c s IH]; intros H; cbn [ReSub.sub_from];
    pose proof (H 0) as H0; cbn [Py.drop] in H0; rewrite H0; [done |].
  f_equal. apply IH. intros j. apply (H (S j)).
Qed.

Lemma sub_from_first_match (p : Re.pattern) (ps : list Template.part)
    (k : nat) (s : string) (x rest : string) (st : Re.mstate) :
  (∀ j, j < k → Re.match_here p Re.mstate0 (Py.drop j s) = None) →
  Py.drop k s = x +:+ rest →
  x ≠ "" →
  Re.match_here p Re.mstate0 (Py.drop k s) = Some (rest, st) →
  ReSub.sub_from p ps 0 s
    = Py.take k s +:+ Template.expand ps st +:+ ReSub.sub_from p ps 0 rest.
Proof.
  intros Hlt Hdrop Hx Hm. destruct x as [|c x]; [done |]. clear Hx.
  revert s Hlt Hdrop Hm. induction k as [|k IH]; intros s Hlt Hdrop Hm.
  - cbn [Py.drop] in *. subst s. rewrite app_cons_s in *.
    cbn [ReSub.sub_from Py.take]. rewrite Hm.
    cbn [String.length]. rewrite Nat.sub_succ_l by (rewrite length_app_s; lia).
    rewrite length_app_s, Nat.add_sub, app_nil_l_s.
    rewrite sub_from_skip by (rewrite length_app_s; lia).
    by rewrite drop_app_length.
  - destruct s as [|d s]; [discriminate |].
    cbn [ReSub.sub_from Py.take].
    pose proof (Hlt 0 ltac:(lia)) as H0. cbn [Py.drop] in H0. rewrite H0.
    rewrite app_cons_s. f_equal. apply IH; [| done | done].
    intros j Hj. apply (Hlt (S j)). lia.
Qed.

(** The two array patterns match at the same places and leave the same
    text. *)
Lemma sub_pattern_None (s : string) :
  Re.match_here array_pattern Re.mstate0 s = None →
  Re.match_here sub_pattern Re.mstate0 s = None.
Proof.
  rewrite match_array_pattern, match_sub_pattern.
  destruct (Py.strip_prefix MARKER s) as [s1|]; [| done].
  by destruct (split_first CLOSE s1) as [[??]|].
Qed.

Lemma sub_pattern_Some (s rest : string) (st : Re.mstate) :
  Re.match_here array_pattern Re.mstate0 s = Some (rest, st) →
  ∃ body st',
    s = MARKER +:+ body +:+ CLOSE +:+ rest
    ∧ Re.group 1 st = body
    ∧ Re.match_here sub_pattern Re.mstate0 s = Some (rest, st')
    ∧ Re.group 1 st' = MARKER
    ∧ Re.group 3 st' = CLOSE.
Proof.
  rewrite match_array_pattern, match_sub_pattern.
  destruct (Py.strip_prefix MARKER s) as [s1|] eqn:EM; [| done].
  destruct (split_first CLOSE s1) as [[body r]|] eqn:E; [| done].
  intros [= <- <-]. apply strip_prefix_Some in EM. apply split_first_Some in E.
  exists body. eexists. split_and!; [by subst | done | done | done | done].
Qed.

(** What a successful search for the array gives: the document is the text
    before the match, then marker, body and closing token, then the text
    after; and the marker with a closing token after it occurs at no earlier
    place. *)
Lemma search_array_Some (content : string) (m : Re.mobj) :
  Re.search array_pattern content = Some m →
  ∃ k body,
    Re.m_pre m = Py.take k content
    ∧ Py.drop k content = MARKER +:+ body +:+ CLOSE +:+ Re.m_post m
    ∧ Re.m_text m = MARKER +:+ body +:+ CLOSE
    ∧ Re.group 1 (Re.m_state m) = body
    ∧ Re.match_here array_pattern Re.mstate0 (Py.drop k content)
        = Some (Re.m_post m, Re.m_state m)
    ∧ ∀ j, j < k → Re.match_here array_pattern Re.mstate0 (Py.drop j content) = None.
Proof.
  unfold Re.search.
  destruct (Re.search_from array_pattern 0 content) as [[[off rest] st]|] eqn:E;
    [| discriminate].
  intros [= <-]. cbn [Re.m_pre Re.m_text Re.m_post Re.m_state].
  apply search_from_Some in E as (k & -> & Hm & Hlt). cbn [Nat.add].
  destruct (sub_pattern_Some _ _ _ Hm) as (body & st' & Hd & Hg & _).
  exists k, body. split_and!; try done.
  rewrite Hd. rewrite <- (app_assoc_s body), <- (app_assoc_s MARKER).
  by rewrite take_diff_s.
Qed.

End SearchAndSub.

(** ** Locating the array *)

Section Locate.
Import Announce.

Lemma find_from_None (sub : string) (off : nat) (s : string) :
  Py.find_from sub off s = None →
  ∀ j, Py.strip_prefix sub (Py.drop j s) = None.
Proof.
  revert off. induction s as [|c s IH]; intros off; cbn [Py.find_from].
  - destruct (Py.strip_prefix sub "") eqn:E; [discriminate |]. by intros _ [|j].
  - destruct (Py.strip_prefix sub (String c s)) eqn:E; [discriminate |].
    intros H [|j]; [exact E | exact (IH _ H j)].
Qed.

Lemma find_from_Some (sub : string) (off : nat) (s : string) (p : nat) :
  Py.find_from sub off s = Some p →
  ∃ k, p = off + k
       ∧ is_Some (Py.strip_prefix sub (Py.drop k s))
       ∧ ∀ j, j < k → Py.strip_prefix sub (Py.drop j s) = None.
Proof.
  revert off. induction s as [|c s IH]; intros off; cbn [Py.find_from].
  - destruct (Py.strip_prefix sub "") eqn:E; [| discriminate].
    intros [= <-]. exists 0. split_and!; [lia | cbn [Py.drop]; rewrite E; by eexists | intros; lia].
  - destruct (Py.strip_prefix sub (String c s)) eqn:E.
    + intros [= <-]. exists 0. split_and!; [lia | cbn [Py.drop]; rewrite E; by eexists | intros; lia].
    + intros H. apply IH in H as (k & -> & Hk & Hlt).
      exists (S k). split_and!; [lia | exact Hk |].
      intros [|j] Hj; [exact E | apply Hlt; lia].
Qed.

Lemma contains_drop (sep s : string) (j : nat) :
  Py.contains sep s = false → Py.contains sep (Py.drop j s) = false.
Proof.
  revert s. induction j as [|j IH]; intros s H; [exact H |].
  destruct s as [|c s]; [exact H |].
  cbn [Py.drop]. apply IH. cbn [Py.contains] in H.
  by destruct (Py.strip_prefix sep (String c s)).
Qed.

Lemma parse_announcements_found (content : string) (m : Re.mobj) :
  Re.search array_pattern content = Some m →
  ∃ start_line end_line,
    parse_announcements content
    = Ok (map decode (Re.finditer ann_pattern (Re.group 1 (Re.m_state m))),
          start_line, end_line).
Proof. intros H. unfold parse_announcements. rewrite H. eauto. Qed.

Lemma search_None_raises (content v t c : string) :
  Re.search_from array_pattern 0 content = None →
  parse_announcements content = Raise NOT_FOUND
  ∧ update_announcement content v t c = Raise NOT_FOUND.
Proof.
  intros H. unfold update_announcement, parse_announcements, Re.search.
  by rewrite H.
Qed.

(** C6 (as the code has it). A document without the marker and a document
    whose marker is followed by no closing token both fail with the same
    error, the one that says the array could not be found, and no new
    content is produced. *)
Theorem C6_absent_and_unterminated_raise_not_found (content v t c : string) :
  (Py.find MARKER content = None
   ∨ ∃ p, Py.find MARKER content = Some p
          ∧ Py.contains CLOSE (Py.drop (p + String.length MARKER) content) = false) →
  parse_announcements content = Raise NOT_FOUND
  ∧ update_announcement content v t c = Raise NOT_FOUND.
Proof.
  intros H. apply search_None_raises, search_from_None. intros j.
  rewrite match_array_pattern.
  destruct (Py.strip_prefix MARKER (Py.drop j content)) as [s1|] eqn:EM; [| done].
  destruct H as [H | (p & H & Hc)].
  - by rewrite (find_from_None _ _ _ H j) in EM.
  - apply find_from_Some in H as (k & -> & _ & Hlt). cbn [Nat.add] in Hc.
    destruct (decide (j < k)) as [Hj|Hj]; [by rewrite (Hlt j Hj) in EM |].
    apply strip_prefix_Some in EM.
    assert (s1 = Py.drop (j - k) (Py.drop (k + String.length MARKER) content)) as ->.
    { rewrite drop_drop_s.
      replace (k + String.length MARKER + (j - k)) with (j + String.length MARKER) by lia.
      by rewrite <- drop_drop_s, EM, drop_app_length. }
    by rewrite (proj2 (split_first_None _ _) (contains_drop _ _ _ Hc)).
Qed.

(** Conversely, a marker followed somewhere by a closing token is found. *)
Lemma terminated_array_is_found (content : string) (p : nat) :
  Py.find MARKER content = Some p →
  Py.contains CLOSE (Py.drop (p + String.length MARKER) content) = true →
  ∃ r, parse_announcements content = Ok r.
Proof.
  intros H Hc. apply find_from_Some in H as (k & -> & [s1 Hk] & _). cbn [Nat.add] in Hc.
  destruct (Re.search array_pattern content) as [m|] eqn:Hs.
  - destruct (parse_announcements_found content m Hs) as (sl & el & ->). eauto.
  - exfalso. unfold Re.search in Hs.
    destruct (Re.search_from array_pattern 0 content) as [[[??]?]|] eqn:E; [done |].
    pose proof (proj1 (search_from_None _ _ _) E k) as Hm.
    rewrite match_array_pattern, Hk in Hm.
    assert (s1 = Py.drop (k + String.length MARKER) content) as ->.
    { apply strip_prefix_Some in Hk. by rewrite <- drop_drop_s, Hk, drop_app_length. }
    destruct (split_first CLOSE _) as [[??]|] eqn:E2; [done |].
    apply split_first_None in E2. congruence.
Qed.

End Locate.

(** ** The splice *)

Section Splice.
Import Announce Samples.

Lemma search_None_from (p : Re.pattern) (s : string) :
  Re.search p s = None → Re.search_from p 0 s = None.
Proof.
  unfold Re.search. by destruct (Re.search_from p 0 s) as [[[??]?]|].
Qed.

Lemma marker_not_empty (body : string) : MARKER +:+ body +:+ CLOSE ≠ "".
Proof. discriminate. Qed.






End Splice.

(** ** Failure to locate the array: examples *)

Section LocateExamples.
Import Announce Samples.

Lemma C6_witness :
  parse_announcements doc_unterminated = Raise NOT_FOUND
  ∧ update_announcement doc_unterminated "0.7.0" "Hi" "Hello" = Raise NOT_FOUND.
Proof.
  apply C6_absent_and_unterminated_raise_not_found.
  right. exists 32. split; vm_compute; reflexivity.
Defined.

(** C6 fails as stated: the document without marker and the document with
    an unterminated array raise one and the same exception. *)
Lemma C6_counterexample :
  Py.contains MARKER doc_no_marker = false
  ∧ Py.contains MARKER doc_unterminated = true
  ∧ Py.contains CLOSE doc_unterminated = false
  ∧ parse_announcements doc_unterminated = parse_announcements doc_no_marker
  ∧ update_announcement doc_unterminated "0.7.0" "Hi" "Hello"
      = update_announcement doc_no_marker "0.7.0" "Hi" "Hello".
Proof. split_and!; vm_compute; reflexivity. Qed.

End LocateExamples.

(** ** Parsing the records *)

Section ParseAll.
Import Announce Samples.



End ParseAll.

Section ParseAllExamples.
Import Announce Samples.




End ParseAllExamples.

(** ** Updating one record among several *)

Section UpdateInPlace.
Import Announce Samples.




(** The example of the specification: the record for 0.5.0, already in the
    standard layout, is reproduced character for character, and the new
    content of 0.6.0 is stored with the two-character escape for its line
    break. *)
Example update_060_keeps_050 :
  let out := new_content doc_two_records "0.6.0" "New Title"
               ("Line one" +:+ NL +:+ "Line two") in
  out = doc_of (HEADER +:+ block "0.5.0" "Old" "first"
                +:+ block "0.6.0" "New Title" ("Line one" +:+ BACKSLASH_N +:+ "Line two")).
Proof. vm_compute. reflexivity. Qed.

End UpdateInPlace.

(** ** Applying the same update twice *)

Section Idempotence.
Import Announce Samples.

(** On plain input the second call reports an update and changes nothing. *)
Example second_call_plain :
  let d1 := new_content doc_two_records "0.7.0" "Hi" "Hello" in
  update_announcement doc_two_records "0.7.0" "Hi" "Hello" = Ok (false, d1)
  ∧ update_announcement d1 "0.7.0" "Hi" "Hello" = Ok (true, d1).
Proof. split; vm_compute; reflexivity. Qed.

(** C4 at two failing inputs.  With a record whose content holds an escaped
    backslash before n, the second call reports an update but returns a
    different document (the first call wrote a line break where the second
    writes backslash, n).  With a key that holds a double quote, the second
    call does not find the key the first call wrote: it reports an insertion
    again and returns a different document. *)
Theorem C4_second_call_changes_the_document :
  (let d1 := new_content doc_escaped_backslash "0.7.0" "Hi" "Hello" in
   let d2 := new_content d1 "0.7.0" "Hi" "Hello" in
   update_announcement doc_escaped_backslash "0.7.0" "Hi" "Hello" = Ok (false, d1)
   ∧ update_announcement d1 "0.7.0" "Hi" "Hello" = Ok (true, d2)
   ∧ d1 ≠ d2)
  ∧ (let d1 := new_content doc_empty_array key_with_quote "Hi" "Hello" in
     let d2 := new_content d1 key_with_quote "Hi" "Hello" in
     update_announcement doc_empty_array key_with_quote "Hi" "Hello" = Ok (false, d1)
     ∧ update_announcement d1 key_with_quote "Hi" "Hello" = Ok (false, d2)
     ∧ d1 ≠ d2).
Proof.
  split; intros d1 d2; (split_and!; [vm_compute; reflexivity | vm_compute; reflexivity |]);
    intros H; apply (f_equal String.length) in H; vm_compute in H; discriminate.
Qed.

End Idempotence.

(** ** Round trip through the stored form *)

Section RoundTrip.
Import Announce Samples.

Lemma replace_one_char (a : ascii) (new s : string) :
  Py.replace (chr a) new s = smap (λ c, if Ascii.eqb a c then new else chr c) s.
Proof.
  unfold Py.replace, chr. induction s as [|c s IH]; [reflexivity |].
  cbn [Py.replace_from Py.strip_prefix smap].
  destruct (Ascii.eqb a c); cbn [String.length Nat.sub]; by rewrite IH.
Qed.

Lemma smap_app (f : ascii → string) (a b : string) :
  smap f (a +:+ b) = smap f a +:+ smap f b.
Proof.
  induction a as [|c a IH]; [reflexivity |].
  rewrite app_cons_s. cbn [smap]. by rewrite IH, app_assoc_s.
Qed.

(** The rendering of a content, character by character. *)
Lemma format_content_cons (c : ascii) (s : string) :
  format_content (String c s)
  = (if Ascii.eqb c NEWLINE then String BSLASH BACKSLASH_N
     else if Ascii.eqb c DQUOTE then String BSLASH Q
     else chr c) +:+ format_content s.
Proof.
  unfold format_content, Q, NL. rewrite !replace_one_char. cbn [smap].
  rewrite smap_app. f_equal.
  rewrite (Ascii.eqb_sym NEWLINE c).
  destruct (Ascii.eqb_spec c NEWLINE) as [-> | Hn]; [reflexivity |].
  cbn [chr smap]. by rewrite (Ascii.eqb_sym DQUOTE c), app_nil_r_s.
Qed.

Lemma count_cons_0 (a c : ascii) (s : string) :
  Py.count a (String c s) = 0 → Ascii.eqb c a = false ∧ Py.count a s = 0.
Proof. cbn [Py.count]. destruct (Ascii.eqb c a); [discriminate | by cbn]. Qed.

Lemma tokenize_esc (d : ascii) (rest : string) :
  Template.tokenize (String BSLASH (String d rest))
  = rmap (cons (Template.TEsc d)) (Template.tokenize rest).
Proof. reflexivity. Qed.

Lemma tokenize_char (c : ascii) (rest : string) :
  Ascii.eqb c BSLASH = false →
  Template.tokenize (String c rest)
  = rmap (cons (Template.TChar c)) (Template.tokenize rest).
Proof. intros H. cbn [Template.tokenize]. by rewrite H. Qed.

Lemma parse_char (n : nat) (c : ascii) (ts : list Template.token) :
  Template.parse_tokens n None (Template.TChar c :: ts)
  = Template.add_literal (chr c) (Template.parse_tokens n None ts).
Proof. reflexivity. Qed.

Lemma parse_esc_bslash (n : nat) (ts : list Template.token) :
  Template.parse_tokens n None (Template.TEsc BSLASH :: ts)
  = Template.add_literal (chr BSLASH) (Template.parse_tokens n None ts).
Proof. reflexivity. Qed.

Lemma parse_esc_quote (n : nat) (ts : list Template.token) :
  Template.parse_tokens n None (Template.TEsc DQUOTE :: ts)
  = Template.add_literal (String BSLASH (chr DQUOTE)) (Template.parse_tokens n None ts).
Proof. reflexivity. Qed.




Lemma unescape_plain (c : ascii) (rest : string) :
  Ascii.eqb c BSLASH = false → unescape (String c rest) = String c (unescape rest).
Proof. intros H. cbn [unescape]. by rewrite H. Qed.



(** *** The whole replacement as a template *)

Lemma safe_app (a b : string) : safe a → safe b → safe (a +:+ b).
Proof.
  induction 1 as [| c r Hc Hr IH | r Hr IH | r Hr IH]; intros Hb;
    rewrite ?app_cons_s, ?app_nil_l_s.
  - done.
  - apply safe_char; auto.
  - apply safe_bslash; auto.
  - apply safe_quote; auto.
Qed.

Lemma safe_escape_rust_string (s : string) : safe (escape_rust_string s).
Proof.
  induction s as [|c s IH]; [constructor |].
  cbn [escape_rust_string].
  destruct (Ascii.eqb_spec c BSLASH) as [-> | Hb].
  - unfold chr. rewrite !app_cons_s, app_nil_l_s. by apply safe_bslash.
  - destruct (Ascii.eqb_spec c DQUOTE) as [-> | Hq].
    + unfold chr. rewrite !app_cons_s, app_nil_l_s. by apply safe_quote.
    + unfold chr. rewrite app_cons_s, app_nil_l_s. by apply safe_char.
Qed.

Lemma safe_format_content (s : string) : Py.count BSLASH s = 0 → safe (format_content s).
Proof.
  induction s as [|c s IH]; intros Hs; [constructor |].
  apply count_cons_0 in Hs as [Hc Hs]. specialize (IH Hs).
  rewrite format_content_cons.
  destruct (Ascii.eqb_spec c NEWLINE) as [-> | Hn].
  - unfold BACKSLASH_N. rewrite !app_cons_s, app_nil_l_s.
    apply safe_bslash. by apply safe_char.
  - destruct (Ascii.eqb_spec c DQUOTE) as [-> | Hq].
    + unfold Q, chr. rewrite !app_cons_s, app_nil_l_s. by apply safe_quote.
    + unfold chr. rewrite app_cons_s, app_nil_l_s. apply safe_char; [| done].
      intros ->. by rewrite Ascii.eqb_refl in Hc.
Qed.

Lemma rmap_rmap {A B C : Type} (f : A → B) (g : B → C) (r : result A) :
  rmap g (rmap f r) = rmap (g ∘ f) r.
Proof. by destruct r. Qed.

(** A safe text in front of a template: its tokens are parsed one by one into
    literal parts, whose expansion is [texp]. *)
Lemma safe_prefix_of_template (n : nat) (a : string) :
  safe a →
  ∀ rest ts ps,
    Template.tokenize rest = Ok ts →
    Template.parse_tokens n None ts = Ok ps →
    ∃ ts' ps',
      Template.tokenize (a +:+ rest) = Ok ts'
      ∧ Template.parse_tokens n None ts' = Ok ps'
      ∧ ∀ st, Template.expand ps' st = texp a +:+ Template.expand ps st.
Proof.
  induction 1 as [| c r Hc Hr IH | r Hr IH | r Hr IH]; intros rest ts ps Ht Hp.
  - exists ts, ps. by split_and!.
  - destruct (IH rest ts ps Ht Hp) as (ts' & ps' & Ht' & Hp' & He').
    assert (Ascii.eqb c BSLASH = false) as Hcb by (by apply Ascii.eqb_neq).
    exists (Template.TChar c :: ts'), (Template.PLit (chr c) :: ps'). split_and!.
    + rewrite app_cons_s, (tokenize_char _ _ Hcb). by rewrite Ht'.
    + rewrite parse_char. by rewrite Hp'.
    + intros st. cbn [Template.expand texp]. by rewrite Hcb, He'.
  - destruct (IH rest ts ps Ht Hp) as (ts' & ps' & Ht' & Hp' & He').
    exists (Template.TEsc BSLASH :: ts'), (Template.PLit (chr BSLASH) :: ps'). split_and!.
    + rewrite !app_cons_s, tokenize_esc. by rewrite Ht'.
    + rewrite parse_esc_bslash. by rewrite Hp'.
    + intros st. cbn [Template.expand]. by rewrite He'.
  - destruct (IH rest ts ps Ht Hp) as (ts' & ps' & Ht' & Hp' & He').
    exists (Template.TEsc DQUOTE :: ts'), (Template.PLit (String BSLASH (chr DQUOTE)) :: ps').
    split_and!.
    + rewrite !app_cons_s, tokenize_esc. by rewrite Ht'.
    + rewrite parse_esc_quote. by rewrite Hp'.
    + intros st. cbn [Template.expand]. by rewrite He'.
Qed.

Ltac safe_literal :=
  repeat first [apply safe_nil | apply safe_char; [discriminate |]].

Lemma safe_join (lines : list string) :
  Forall safe lines → safe (Py.join NL lines).
Proof.
  induction 1 as [|x l Hx Hl IH]; [constructor |].
  destruct l as [|y l]; [exact Hx |].
  change (Py.join NL (x :: y :: l)) with (x +:+ NL +:+ Py.join NL (y :: l)).
  apply safe_app; [exact Hx |]. apply safe_app; [safe_literal | exact IH].
Qed.

Lemma safe_Q : safe Q.
Proof. safe_literal. Qed.

Lemma safe_field (name text : string) :
  safe name → safe text → safe (name +:+ Q +:+ text +:+ Q +:+ ",").
Proof.
  intros Hn Ht.
  apply safe_app; [exact Hn |]. apply safe_app; [exact safe_Q |].
  apply safe_app; [exact Ht |]. apply safe_app; [exact safe_Q | safe_literal].
Qed.

Lemma safe_render_ann (ann : announcement) :
  Py.count BSLASH (content ann) = 0 → Forall safe (render_ann ann).
Proof.
  intros Hc. unfold render_ann.
  apply List.Forall_cons; [safe_literal |].
  apply List.Forall_cons; [apply safe_field; [safe_literal | apply safe_escape_rust_string] |].
  apply List.Forall_cons; [apply safe_field; [safe_literal | apply safe_escape_rust_string] |].
  apply List.Forall_cons; [apply safe_field; [safe_literal | by apply safe_format_content] |].
  apply List.Forall_cons; [safe_literal | apply List.Forall_nil].
Qed.

Lemma safe_array_lines (anns : list announcement) :
  Forall (λ ann, Py.count BSLASH (content ann) = 0) anns →
  Forall safe (array_lines anns).
Proof.
  intros H. unfold array_lines. apply List.Forall_cons; [safe_literal |].
  induction H as [|a l Ha Hl IH]; [apply List.Forall_nil |].
  cbn [map concat]. apply Forall_app. split; [by apply safe_render_ann | exact IH].
Qed.

Lemma template_tail :
  Template.tokenize (String BSLASH "3") = Ok [Template.TEsc "3"]
  ∧ Template.parse_tokens 3 None [Template.TEsc "3"] = Ok [Template.PGroup 3].
Proof. split; reflexivity. Qed.

Lemma parse_group_1_newline (ts : list Template.token) :
  Template.parse_tokens 3 None (Template.TEsc "1" :: Template.TEsc "n" :: ts)
  = rmap (λ ps, Template.PGroup 1 :: Template.PLit NL :: ps)
         (Template.parse_tokens 3 None ts).
Proof.
  change (Template.parse_tokens 3 None (Template.TEsc "1" :: Template.TEsc "n" :: ts))
    with (Template.add_group 3 1
            (Template.add_literal NL (Template.parse_tokens 3 None ts))).
  by destruct (Template.parse_tokens 3 None ts).
Qed.

Lemma replacement_template (anns : list announcement) :
  Forall (λ ann, Py.count BSLASH (content ann) = 0) anns →
  ∃ ps,
    Template.parse_template 3 (replacement anns) = Ok ps
    ∧ ∀ st, Template.expand ps st
            = Re.group 1 st +:+ NL
              +:+ texp (Py.join NL (array_lines anns) +:+ NL) +:+ Re.group 3 st.
Proof.
  intros H.
  assert (safe (Py.join NL (array_lines anns) +:+ NL)) as Hsafe.
  { apply safe_app; [by apply safe_join, safe_array_lines | safe_literal]. }
  destruct template_tail as [Ht3 Hp3].
  destruct (safe_prefix_of_template 3 _ Hsafe _ _ _ Ht3 Hp3) as (ts & ps & Ht & Hp & He).
  exists (Template.PGroup 1 :: Template.PLit NL :: ps). split.
  - unfold Template.parse_template, replacement.
    rewrite !app_cons_s, !app_nil_l_s, !tokenize_esc.
    rewrite <- (app_assoc_s (Py.join NL (array_lines anns)) NL), Ht. cbn [rmap rbind].
    by rewrite parse_group_1_newline, Hp.
  - intros st. cbn [Template.expand]. rewrite He. cbn [Template.expand].
    by rewrite app_nil_r_s.
Qed.

(** When no content of the updated sequence holds a backslash, the update
    succeeds and writes, between the untouched text before and after the
    array, the marker, the regenerated lines and the closing token. *)
Lemma update_announcement_clean (content v t c : string) (m : Re.mobj)
    (anns : list announcement) (sl el : nat) :
  Re.search array_pattern content = Some m →
  Re.search array_pattern (Re.m_post m) = None →
  parse_announcements content = Ok (anns, sl, el) →
  Forall (λ ann, Py.count BSLASH (Announce.content ann) = 0) (upsert anns v t c).1 →
  update_announcement content v t c
  = Ok ((upsert anns v t c).2,
        Re.m_pre m +:+ MARKER +:+ NL
        +:+ texp (Py.join NL (array_lines (upsert anns v t c).1) +:+ NL)
        +:+ CLOSE +:+ Re.m_post m).
Proof.
  intros Hs Hpost Hp Hclean.
  unfold update_announcement. rewrite Hp. cbn [rbind].
  destruct (upsert anns v t c) as [anns' w]. cbn [fst snd] in *.
  destruct (replacement_template anns' Hclean) as (ps & Hps & He).
  unfold ReSub.sub. change (ReSub.ngroups sub_pattern) with 3. rewrite Hps. cbn [rbind].
  apply search_array_Some in Hs as (k & body & Hpre & Hd & _ & _ & Hm & Hlt).
  destruct (sub_pattern_Some _ _ _ Hm) as (body' & st' & _ & _ & Hm' & Hg1 & Hg3).
  rewrite (sub_from_first_match sub_pattern ps k content
             (MARKER +:+ body +:+ CLOSE) (Re.m_post m) st').
  - rewrite He, Hg1, Hg3, Hpre, !app_assoc_s. do 7 f_equal.
    apply sub_from_no_match. intros j. apply sub_pattern_None.
    by apply search_from_None with (off := 0), search_None_from.
  - intros j Hj. by apply sub_pattern_None, Hlt.
  - by rewrite Hd, !app_assoc_s.
  - apply marker_not_empty.
  - exact Hm'.
Qed.




End RoundTrip.

(** ** The locale-key differ *)

Section Differ.
Import Locale.

Lemma StronglySorted_filter_le (P : string → Prop) `{∀ x, Decision (P x)}
    (l : list string) :
  StronglySorted String.le l → StronglySorted String.le (filter P l).
Proof.
  induction 1 as [|x l Hl IH Hx]; [constructor |].
  rewrite filter_cons. destruct (decide (P x)); [| exact IH].
  constructor; [exact IH |].
  apply Forall_forall. intros y [_ Hy]%list_elem_of_filter.
  rewrite Forall_forall in Hx. by apply Hx.
Qed.

Lemma elem_of_keys (m : gmap string yaml) (k : string) : k ∈ keys m ↔ k ∈ dom m.
Proof.
  unfold keys. rewrite elem_of_dom, list_elem_of_fmap. split.
  - intros ([k' v] & -> & Hkv). apply elem_of_map_to_list in Hkv. by exists v.
  - intros [v Hv]. exists (k, v). split; [done | by apply elem_of_map_to_list].
Qed.

Lemma sorted_keys_spec (m : gmap string yaml) :
  StronglySorted String.le (sorted (keys m))
  ∧ NoDup (sorted (keys m))
  ∧ ∀ k, k ∈ sorted (keys m) ↔ k ∈ dom m.
Proof.
  unfold sorted. split_and!.
  - apply StronglySorted_merge_sort; apply _.
  - rewrite merge_sort_Permutation. apply NoDup_fst_map_to_list.
  - intros k. rewrite merge_sort_Permutation. apply elem_of_keys.
Qed.

(** The keys of [a] that [b] lacks, in order. *)
Lemma difference_spec (a b : gmap string yaml) :
  let l := filter (absent b) (sorted (keys a)) in
  StronglySorted String.le l ∧ NoDup l ∧ ∀ k, k ∈ l ↔ k ∈ dom a ∧ k ∉ dom b.
Proof.
  destruct (sorted_keys_spec a) as (Hs & Hn & He). cbn zeta. split_and!.
  - by apply StronglySorted_filter_le.
  - by apply NoDup_filter.
  - intros k. rewrite list_elem_of_filter, He, not_elem_of_dom. unfold absent. tauto.
Qed.

Lemma difference_by_domains (a b a' b' : gmap string yaml) :
  dom a' = dom a → dom b' = dom b →
  filter (absent b') (sorted (keys a')) = filter (absent b) (sorted (keys a)).
Proof.
  intros Ha Hb.
  destruct (difference_spec a b) as (Hs & Hn & He).
  destruct (difference_spec a' b') as (Hs' & Hn' & He').
  apply (StronglySorted_unique String.le); [done | done |].
  apply NoDup_Permutation; [done | done |].
  intros k. by rewrite He, He', Ha, Hb.
Qed.

(** C8. For every pair of flattened mappings, [missing] lists exactly the
    keys of the English mapping that the target lacks and [extra] exactly
    the keys of the target that the English mapping lacks, each in ascending
    order without repetition; both depend only on which keys are present,
    not on the values. *)
Theorem C8_missing_and_extra_keys (en_flat target_flat : gmap string yaml) :
  (StronglySorted String.le (missing en_flat target_flat)
   ∧ NoDup (missing en_flat target_flat)
   ∧ ∀ k, k ∈ missing en_flat target_flat ↔ k ∈ dom en_flat ∧ k ∉ dom target_flat)
  ∧ (StronglySorted String.le (extra en_flat target_flat)
     ∧ NoDup (extra en_flat target_flat)
     ∧ ∀ k, k ∈ extra en_flat target_flat ↔ k ∈ dom target_flat ∧ k ∉ dom en_flat)
  ∧ ∀ en' target' : gmap string yaml,
      dom en' = dom en_flat → dom target' = dom target_flat →
      missing en' target' = missing en_flat target_flat
      ∧ extra en' target' = extra en_flat target_flat.
Proof.
  split_and!; try apply difference_spec.
  intros en' target' He Ht. split; by apply difference_by_domains.
Qed.

Lemma C8_witness :
  let en : gmap string yaml := {[ "a" := YList [YScalar "x"]; "c" := YScalar "C" ]} in
  let target : gmap string yaml := {[ "a" := YScalar "other"; "z" := YScalar "Z" ]} in
  let en' : gmap string yaml := {[ "a" := YScalar "changed"; "c" := YList [] ]} in
  let target' : gmap string yaml := {[ "a" := YList []; "z" := YScalar "" ]} in
  missing en' target' = missing en target ∧ extra en' target' = extra en target.
Proof.
  intros en target en' target'.
  apply (proj2 (proj2 (C8_missing_and_extra_keys en target)) en' target');
    vm_compute; reflexivity.
Defined.

Example differ_example :
  let en : gmap string yaml :=
    {[ "b.title" := YScalar "Title"; "a" := YList [YScalar "x"]; "c" := YScalar "C" ]} in
  let target : gmap string yaml :=
    {[ "a" := YScalar "other"; "z" := YScalar "Z"; "d" := YScalar "D" ]} in
  missing en target = ["b.title"; "c"] ∧ extra en target = ["d"; "z"].
Proof. split; vm_compute; reflexivity. Qed.

End Differ.

(** ** The locale flattener *)

Section Flatten.
Import Locale.

Lemma foldl_insert_lookup_Some (items : list (string * yaml)) (m0 : gmap string yaml)
    (k : string) (v : yaml) :
  foldl (λ m kv, <[kv.1 := kv.2]> m) m0 items !! k = Some v →
  m0 !! k = Some v ∨ (k, v) ∈ items.
Proof.
  revert m0. induction items as [|[k' v'] items IH]; intros m0 H; [by left |].
  cbn [foldl] in H. apply IH in H as [H | H].
  - cbn in H. apply lookup_insert_Some in H as [[-> ->] | [_ H]].
    + right. left.
    + by left.
  - right. by right.
Qed.

Lemma foldl_insert_lookup_is_Some (items : list (string * yaml)) (m0 : gmap string yaml)
    (k : string) :
  is_Some (m0 !! k) ∨ (∃ v, (k, v) ∈ items) →
  is_Some (foldl (λ m kv, <[kv.1 := kv.2]> m) m0 items !! k).
Proof.
  revert m0. induction items as [|[k' v'] items IH]; intros m0 H.
  - destruct H as [H | [v H]]; [done | by apply elem_of_nil in H].
  - cbn [foldl]. apply IH. cbn.
    destruct (decide (k' = k)) as [-> | Hne].
    + left. rewrite lookup_insert_eq. by eexists.
    + rewrite lookup_insert_ne by done.
      destruct H as [H | [v H]]; [by left |].
      apply elem_of_cons in H as [[= ? ?] | H]; [congruence |].
      right. by exists v.
Qed.

Lemma py_dict_lookup_Some (items : list (string * yaml)) (k : string) (v : yaml) :
  py_dict items !! k = Some v → (k, v) ∈ items.
Proof.
  intros H. apply foldl_insert_lookup_Some in H as [H | H]; [| done].
  by rewrite lookup_empty in H.
Qed.

Lemma py_dict_lookup_is_Some (items : list (string * yaml)) (k : string) (v : yaml) :
  (k, v) ∈ items → is_Some (py_dict items !! k).
Proof. intros H. apply foldl_insert_lookup_is_Some. right. by exists v. Qed.

(** The recursion equation of the source: a dictionary value contributes
    the items of its own flattening under the new key. *)
Lemma entry_items_dict (parent_key sep k : string) (d : list (string * yaml)) :
  entry_items parent_key sep k (YDict d)
  = map_to_list (flatten_dict d (new_key parent_key sep k) sep).
Proof.
  unfold flatten_dict. cbn [entry_items]. do 2 f_equal.
  induction d as [|[k' v'] d IH]; [reflexivity |].
  cbn [loop_items]. by rewrite <- IH.
Qed.

Lemma elem_of_loop_items (parent_key sep : string) (d : list (string * yaml))
    (key : string) (w : yaml) :
  (key, w) ∈ loop_items parent_key sep d ↔
  ∃ k0 v0, (k0, v0) ∈ d ∧ (key, w) ∈ entry_items parent_key sep k0 v0.
Proof.
  induction d as [|[k v] d IH]; cbn [loop_items].
  - split; [by intros ?%elem_of_nil | by intros (? & ? & ?%elem_of_nil & _)].
  - rewrite elem_of_app, IH. split.
    + intros [H | (k0 & v0 & Hin & H)].
      * exists k, v. split; [left | done].
      * exists k0, v0. split; [by right | done].
    + intros (k0 & v0 & Hin & H).
      apply elem_of_cons in Hin as [[= -> ->] | Hin]; [by left |].
      right. by exists k0, v0.
Qed.

(** Every item comes from a path through nested dictionaries to a value
    that is not a dictionary. *)
Lemma entry_items_sound (sep : string) (v0 : yaml) :
  ∀ parent_key k0 key w,
    (key, w) ∈ entry_items parent_key sep k0 v0 →
    ∃ path, leaf_of v0 path w ∧ key = dotted sep (new_key parent_key sep k0) path.
Proof.
  induction v0 as [s | l | d IH] using yaml_nested_ind; intros parent_key k0 key w H.
  - cbn [entry_items] in H. apply list_elem_of_singleton in H as [= -> ->].
    exists []. split; [constructor | reflexivity].
  - cbn [entry_items] in H. apply list_elem_of_singleton in H as [= -> ->].
    exists []. split; [constructor | reflexivity].
  - rewrite entry_items_dict in H. apply elem_of_map_to_list in H.
    apply py_dict_lookup_Some, elem_of_loop_items in H as (k1 & v1 & Hin & H).
    rewrite Forall_forall in IH.
    destruct (IH (k1, v1) Hin _ _ _ _ H) as (path & Hleaf & ->).
    exists (k1 :: path). split; [by econstructor | reflexivity].
Qed.


Lemma new_key_nonempty (p sep k : string) :
  p ≠ "" → new_key p sep k = p +:+ sep +:+ k ∧ new_key p sep k ≠ "".
Proof.
  intros Hp. unfold new_key. destruct p as [|c p]; [done |]. by cbn.
Qed.

Lemma join_cons_cons (sep x y : string) (l : list string) :
  Py.join sep (x :: y :: l) = x +:+ sep +:+ Py.join sep (y :: l).
Proof. reflexivity. Qed.





(** The list of the example is one entry; nothing inside it becomes a key. *)
Example flatten_list_example :
  flatten_dict [("menu", YDict [("items", YList [YDict [("deep", YScalar "x")]]);
                                ("title", YScalar "Menu")])] "" "."
  = {[ "menu.items" := YList [YDict [("deep", YScalar "x")]];
       "menu.title" := YScalar "Menu" ]}.
Proof. vm_compute. reflexivity. Qed.


End Flatten.


(** * Further properties of the scripts *)

(** ** Escaping and decoding *)

Section CodecMore.
Import Announce.

Lemma escape_rust_string_app (a b : string) :
  escape_rust_string (a +:+ b) = escape_rust_string a +:+ escape_rust_string b.
Proof.
  induction a as [|c a IH]; [reflexivity |].
  rewrite app_cons_s. cbn [escape_rust_string]. by rewrite IH, app_assoc_s.
Qed.

Lemma format_content_app (a b : string) :
  format_content (a +:+ b) = format_content a +:+ format_content b.
Proof.
  induction a as [|c a IH]; [reflexivity |].
  by rewrite app_cons_s, !format_content_cons, IH, app_assoc_s.
Qed.

(** X1. Escaping and content rendering work character by character: the
    result for a concatenation is the concatenation of the results. *)
Theorem escaping_distributes_over_concatenation (a b : string) :
  escape_rust_string (a +:+ b) = escape_rust_string a +:+ escape_rust_string b
  ∧ format_content (a +:+ b) = format_content a +:+ format_content b.
Proof. split; [apply escape_rust_string_app | apply format_content_app]. Qed.

(** X2. The escaped text has one more character for each backslash and each
    double quote of the input, and no other change of length. *)
Theorem escape_rust_string_length (s : string) :
  String.length (escape_rust_string s)
  = String.length s + Py.count BSLASH s + Py.count DQUOTE s.
Proof.
  induction s as [|c s IH]; [reflexivity |].
  cbn [escape_rust_string Py.count String.length].
  rewrite length_app_s, IH.
  destruct (Ascii.eqb_spec c BSLASH) as [-> | Hb]; [cbn; lia |].
  destruct (Ascii.eqb_spec c DQUOTE) as [-> | Hq]; cbn; lia.
Qed.

Lemma unescape_no_backslash (s : string) : Py.count BSLASH s = 0 → unescape s = s.
Proof.
  induction s as [|c s IH]; intros Hs; [reflexivity |].
  apply count_cons_0 in Hs as [Hc Hs].
  by rewrite (unescape_plain _ _ Hc), IH.
Qed.

Lemma unescape_length_upto (n : nat) (s : string) :
  String.length s ≤ n → String.length (unescape s) ≤ String.length s.
Proof.
  revert s. induction n as [|n IH]; intros s Hn.
  - destruct s; [done | simpl in Hn; lia].
  - destruct s as [|c s]; [done |]. simpl in Hn.
    cbn [unescape]. destruct (Ascii.eqb c BSLASH).
    + destruct s as [|d s]; [done |]. simpl in Hn.
      pose proof (IH s ltac:(lia)) as H1.
      pose proof (IH (String d s) ltac:(simpl; lia)) as H2.
      destruct (Ascii.eqb d "n"), (Ascii.eqb d BSLASH), (Ascii.eqb d DQUOTE);
        simpl in *; lia.
    + pose proof (IH s ltac:(lia)). simpl. lia.
Qed.

(** X3. Decoding never makes a text longer, and leaves a text without
    backslashes as it is. *)
Theorem unescape_shrinks_and_keeps_plain_text (s : string) :
  String.length (unescape s) ≤ String.length s
  ∧ (Py.count BSLASH s = 0 → unescape s = s).
Proof.
  split; [by apply (unescape_length_upto (String.length s)) | apply unescape_no_backslash].
Qed.

Lemma X3_witness :
  unescape "plain text, no escapes" = "plain text, no escapes".
Proof.
  apply (proj2 (unescape_shrinks_and_keeps_plain_text "plain text, no escapes")).
  reflexivity.
Defined.

Lemma split_not_nil (c : ascii) (s : string) : Py.split c s ≠ [].
Proof.
  destruct s as [|a s]; cbn [Py.split]; [done |].
  destruct (Ascii.eqb a c); [done |]. by destruct (Py.split c s).
Qed.

Lemma split_singleton (c : ascii) (s x : string) : Py.split c s = [x] → x = s.
Proof.
  revert x. induction s as [|a s IH]; intros x; cbn [Py.split]; [by intros [= <-] |].
  destruct (Ascii.eqb a c).
  - intros [= _ E]. by destruct (split_not_nil c s).
  - destruct (Py.split c s) as [|y ys] eqn:E; [by destruct (split_not_nil c s) |].
    intros [= <- ->]. by rewrite (IH y eq_refl).
Qed.

(** X4. The stand-alone content formatter always returns the escaped content
    between two double quotes, whether it has one line or several, and
    decoding what stands between the quotes gives the content back, for every
    content. *)
Theorem format_content_for_rust_round_trip (content : string) :
  format_content_for_rust content = Q +:+ escape_rust_string content +:+ Q
  ∧ ∃ inner, format_content_for_rust content = Q +:+ inner +:+ Q
             ∧ unescape inner = content.
Proof.
  assert (format_content_for_rust content = Q +:+ escape_rust_string content +:+ Q) as H.
  { unfold format_content_for_rust.
    destruct (Py.split NEWLINE (escape_rust_string content)) as [|x [|y l]] eqn:E;
      [done | | done].
    by rewrite (split_singleton _ _ _ E). }
  split; [exact H |].
  exists (escape_rust_string content). split; [exact H | apply unescape_escape_rust_string].
Qed.

(** X5. On a content with neither backslash nor line break, the rendering
    used for the array and the escaping used for versions and titles give
    the same text. *)
Theorem format_content_agrees_with_escape (s : string) :
  Py.count BSLASH s = 0 → Py.count NEWLINE s = 0 →
  format_content s = escape_rust_string s.
Proof.
  induction s as [|c s IH]; intros Hb Hn; [reflexivity |].
  apply count_cons_0 in Hb as [Hcb Hb]. apply count_cons_0 in Hn as [Hcn Hn].
  rewrite format_content_cons. cbn [escape_rust_string].
  by rewrite Hcb, Hcn, IH.
Qed.

Lemma X5_witness :
  let s := "say " +:+ Q +:+ "hi" +:+ Q in
  format_content s = escape_rust_string s.
Proof. intros s. apply (format_content_agrees_with_escape s); reflexivity. Defined.

Lemma texp_escape_rust_string (s : string) :
  texp (escape_rust_string s) = smap (stored_char false) s.
Proof.
  induction s as [|c s IH]; [reflexivity |].
  cbn [escape_rust_string smap]. unfold stored_char at 1. rewrite andb_false_r.
  destruct (Ascii.eqb_spec c BSLASH) as [-> | Hb].
  - unfold chr. rewrite !app_cons_s, !app_nil_l_s.
    change (texp (String BSLASH (String BSLASH ?r))) with (String BSLASH (texp r)).
    by rewrite IH.
  - destruct (Ascii.eqb_spec c DQUOTE) as [-> | Hq].
    + unfold chr. rewrite !app_cons_s, !app_nil_l_s.
      change (texp (String BSLASH (String DQUOTE ?r)))
        with (String BSLASH (String DQUOTE (texp r))).
      by rewrite IH.
    + unfold chr. rewrite !app_cons_s, !app_nil_l_s. cbn [texp].
      apply Ascii.eqb_neq in Hb. by rewrite Hb, IH.
Qed.

(** X6. Whatever characters a version or title holds, its escaped text is a
    well-formed replacement template for the substitution, and it expands to
    the text itself with a backslash before each double quote (its
    backslashes come out single). *)
Theorem escaped_field_is_a_template (n : nat) (s : string) :
  ∃ ps,
    Template.parse_template n (escape_rust_string s) = Ok ps
    ∧ ∀ st, Template.expand ps st = smap (stored_char false) s.
Proof.
  destruct (safe_prefix_of_template n _ (safe_escape_rust_string s) "" [] []
              eq_refl eq_refl) as (ts & ps & Ht & Hp & He).
  exists ps. unfold Template.parse_template.
  rewrite app_nil_r_s in Ht. rewrite Ht. cbn [rbind]. split; [exact Hp |].
  intros st. rewrite He. cbn [Template.expand].
  by rewrite app_nil_r_s, texp_escape_rust_string.
Qed.

End CodecMore.

(** ** The list update *)

Section UpsertMore.
Import Announce.

Lemma upsert_cases (anns : list announcement) (v t c : string) :
  (∃ l1 r l2, anns = l1 ++ r :: l2 ∧ version r = v
              ∧ (∀ r', r' ∈ l1 → version r' ≠ v)
              ∧ upsert anns v t c = (l1 ++ Announcement v t c :: l2, true))
  ∨ ((∀ r, r ∈ anns → version r ≠ v)
     ∧ upsert anns v t c = (anns ++ [Announcement v t c], false)).
Proof.
  destruct (existing_idx anns v) as [i|] eqn:E.
  - left. apply existing_idx_Some in E as (r & Hr & Hv & Hfirst).
    exists (take i anns), r, (drop (S i) anns).
    pose proof (take_drop_middle _ _ _ Hr) as Hd.
    split_and!; [done | done | |].
    + intros r' Hin. apply list_elem_of_lookup in Hin as [j Hj].
      pose proof (lookup_lt_Some _ _ _ Hj) as Hlt. rewrite length_take in Hlt.
      rewrite lookup_take_lt in Hj by lia. apply (Hfirst j r' Hj). lia.
    + rewrite (upsert_found _ _ t c _ _ Hr Hv Hfirst). f_equal.
      rewrite <- Hd at 1.
      assert (i = length (take i anns) + 0) as Hi.
      { rewrite length_take. apply lookup_lt_Some in Hr. lia. }
      rewrite Hi at 1. by rewrite insert_app_r.
  - right. rewrite existing_idx_None in E. split; [exact E | by apply upsert_not_found].
Qed.

Lemma upsert_at_first (l1 l2 : list announcement) (r : announcement) (v t c : string) :
  version r = v → (∀ r', r' ∈ l1 → version r' ≠ v) →
  upsert (l1 ++ r :: l2) v t c = (l1 ++ Announcement v t c :: l2, true).
Proof.
  intros Hv Hl1.
  rewrite (upsert_found (l1 ++ r :: l2) v t c (length l1 + 0) r).
  - by rewrite insert_app_r.
  - by rewrite lookup_app_r, Nat.add_0_r, Nat.sub_diag by lia.
  - exact Hv.
  - intros j r' Hj Hlt. rewrite lookup_app_l in Hj by lia.
    apply Hl1. by eapply list_elem_of_lookup_2.
Qed.

(** X7. Two updates for the same version: the second one wins, and it is
    always reported as an update, whether the first added the record or
    changed it.  In particular the same update made twice leaves the list as
    the first made it. *)
Theorem upsert_last_write_wins (anns : list announcement) (v t1 c1 t2 c2 : string) :
  upsert (upsert anns v t1 c1).1 v t2 c2 = ((upsert anns v t2 c2).1, true).
Proof.
  destruct (upsert_cases anns v t1 c1) as [(l1 & r & l2 & -> & Hv & Hl1 & ->) | [Hno ->]];
    cbn [fst].
  - rewrite (upsert_at_first l1 l2 (Announcement v t1 c1) v t2 c2 eq_refl Hl1).
    by rewrite (upsert_at_first l1 l2 r v t2 c2 Hv Hl1).
  - change (anns ++ [Announcement v t1 c1]) with (anns ++ Announcement v t1 c1 :: []).
    rewrite (upsert_at_first anns [] (Announcement v t1 c1) v t2 c2 eq_refl Hno).
    by rewrite (upsert_not_found anns v t2 c2 Hno).
Qed.

Lemma upsert_versions (anns : list announcement) (v t c : string) :
  map version (upsert anns v t c).1
  = map version anns ++ (if (upsert anns v t c).2 then [] else [v]).
Proof.
  destruct (upsert_cases anns v t c) as [(l1 & r & l2 & -> & Hv & Hl1 & ->) | [Hno ->]];
    cbn [fst snd].
  - rewrite !map_app, app_nil_r. cbn [map]. by rewrite Hv.
  - by rewrite map_app.
Qed.

(** X8. The versions of the list after an update are the versions before,
    in the same order, followed by the new version when it was not there; so
    a list whose versions are all different keeps that property. *)
Theorem upsert_keeps_versions_distinct (anns : list announcement) (v t c : string) :
  map version (upsert anns v t c).1
  = map version anns ++ (if (upsert anns v t c).2 then [] else [v])
  ∧ (NoDup (map version anns) → NoDup (map version (upsert anns v t c).1)).
Proof.
  split; [apply upsert_versions |].
  intros Hnd. rewrite upsert_versions.
  destruct (upsert_cases anns v t c) as [(l1 & r & l2 & -> & Hv & Hl1 & ->) | [Hno ->]];
    cbn [snd].
  - by rewrite app_nil_r.
  - apply NoDup_app. split_and!; [done | | apply NoDup_singleton].
    intros x Hx Hin. apply list_elem_of_singleton in Hin as ->.
    apply list_elem_of_fmap in Hx as (r & Hr & Hin). by apply (Hno r Hin).
Qed.

Lemma X8_witness :
  let anns := [Announcement "0.5.0" "Old" "first"; Announcement "0.6.0" "T6" "six"] in
  NoDup (map version (upsert anns "0.7.0" "Hi" "Hello").1).
Proof.
  intros anns. apply (proj2 (upsert_keeps_versions_distinct anns "0.7.0" "Hi" "Hello")).
  cbn [anns map version].
  repeat (apply NoDup_cons_2;
          [intros H; repeat (apply elem_of_cons in H as [H | H]; [discriminate |]);
           by apply elem_of_nil in H |]).
  apply NoDup_nil_2.
Defined.

(** X9. An update for one version leaves the records of every other
    version as they are: taken in order, they are the same records before
    and after. *)
Theorem upsert_leaves_other_versions (anns : list announcement) (v t c : string) :
  filter (λ r, version r ≠ v) (upsert anns v t c).1
  = filter (λ r, version r ≠ v) anns.
Proof.
  destruct (upsert_cases anns v t c) as [(l1 & r & l2 & -> & Hv & Hl1 & ->) | [Hno ->]];
    cbn [fst].
  - rewrite !filter_app, !filter_cons. cbn [version].
    destruct (decide (v ≠ v)) as [Hne |]; [done |].
    by destruct (decide (version r ≠ v)).
  - rewrite filter_app, filter_cons, filter_nil. cbn [version].
    destruct (decide (v ≠ v)) as [Hne |]; [done |]. by rewrite app_nil_r.
Qed.

End UpsertMore.

(** ** The command line of the announcement updater *)

Section CommandLine.
Import Announce AnnounceMain.

Lemma check_required_Run (v t c v' t' c' : string) :
  check_required v t c = Run v' t' c' →
  v' = v ∧ t' = t ∧ c' = c ∧ v ≠ "" ∧ t ≠ "" ∧ c ≠ "".
Proof.
  unfold check_required. destruct v, t, c; cbn; try discriminate.
  by intros [= <- <- <-].
Qed.

(** X10. Whatever the arguments and the files, when the command line is
    accepted the version, the title and the content handed on are all
    non-empty. *)
Theorem read_args_fields_are_not_empty (isfile : string → option string)
    (argv : list string) (v t c : string) :
  read_args isfile argv = Run v t c → v ≠ "" ∧ t ≠ "" ∧ c ≠ "".
Proof.
  unfold read_args.
  destruct (remove_first "--dry-run" argv) as [|a [|b [|x [|y [|z l]]]]];
    try discriminate;
    repeat match goal with
           | |- context [String.eqb ?a ?b] => destruct (String.eqb a b); try discriminate
           | |- context [isfile ?a] => destruct (isfile a); try discriminate
           end;
    intros H; by apply check_required_Run in H as (-> & -> & -> & ?).
Qed.

Lemma X10_witness :
  "0.7.0" ≠ "" ∧ "Hi" ≠ "" ∧ "Hello" ≠ "".
Proof.
  apply (read_args_fields_are_not_empty (λ _, None) ["0.7.0"; "Hi"; "Hello"]).
  reflexivity.
Defined.

Lemma replace_from_absent (old new s : string) :
  Py.contains old s = false → Py.replace_from old new 0 s = s.
Proof.
  induction s as [|c s IH]; [reflexivity |].
  cbn [Py.contains Py.replace_from].
  destruct (Py.strip_prefix old (String c s)); [discriminate |].
  intros H. by rewrite (IH H).
Qed.

Lemma remove_first_absent (x : string) (args : list string) :
  x ∉ args → remove_first x args = args.
Proof.
  induction args as [|a args IH]; [reflexivity |].
  intros H. apply not_elem_of_cons in H as [Hne H]. cbn [remove_first].
  assert (String.eqb a x = false) as -> by (apply String.eqb_neq; congruence).
  by rewrite IH.
Qed.

(** X11. A content argument that names no file and holds no backslash, n
    pair is handed on exactly as typed.  With the dry-run flag in front this
    holds for any three arguments; without it, for three arguments none of
    which is the flag. *)
Theorem content_argument_without_escape_is_verbatim (isfile : string → option string)
    (v t content_arg : string) :
  isfile content_arg = None →
  Py.contains BACKSLASH_N content_arg = false →
  read_args isfile ["--dry-run"; v; t; content_arg] = check_required v t content_arg
  ∧ ("--dry-run" ∉ [v; t; content_arg] →
     read_args isfile [v; t; content_arg] = check_required v t content_arg).
Proof.
  intros Hf Hc. split.
  - unfold read_args. cbn [remove_first String.eqb Ascii.eqb Bool.eqb].
    rewrite Hf. unfold Py.replace. by rewrite (replace_from_absent _ _ _ Hc).
  - intros Hno. unfold read_args. rewrite (remove_first_absent _ _ Hno).
    rewrite Hf. unfold Py.replace. by rewrite (replace_from_absent _ _ _ Hc).
Qed.

Lemma X11_witness :
  read_args (λ _, None) ["--dry-run"; "0.7.0"; "Hi"; "Hello"] = Run "0.7.0" "Hi" "Hello"
  ∧ read_args (λ _, None) ["0.7.0"; "Hi"; "Hello"] = Run "0.7.0" "Hi" "Hello".
Proof.
  destruct (content_argument_without_escape_is_verbatim
              (λ _, None) "0.7.0" "Hi" "Hello" eq_refl eq_refl) as [H1 H2].
  split; [exact H1 | apply H2].
  intros H. repeat (apply elem_of_cons in H as [H | H]; [discriminate |]).
  by apply elem_of_nil in H.
Defined.




End CommandLine.

(** ** The extraction of the diagram source *)

Section MermaidBlock.

Lemma find_from_contains (sub : string) (off : nat) (s : string) :
  Py.find_from sub off s = None ↔ Py.contains sub s = false.
Proof.
  revert off. induction s as [|c s IH]; intros off; cbn [Py.find_from Py.contains].
  - by destruct (Py.strip_prefix sub "").
  - destruct (Py.strip_prefix sub (String c s)); [done | apply IH].
Qed.

Lemma find_from_off (sub : string) (off : nat) (s : string) :
  Py.find_from sub off s = (λ k, off + k) <$> Py.find_from sub 0 s.
Proof.
  revert off. induction s as [|c s IH]; intros off; cbn [Py.find_from].
  - destruct (Py.strip_prefix sub ""); cbn; [f_equal; lia | done].
  - destruct (Py.strip_prefix sub (String c s)); cbn; [f_equal; lia |].
    rewrite (IH (S off)), (IH 1).
    destruct (Py.find_from sub 0 s); cbn; [f_equal; lia | done].
Qed.

Lemma find_from_shift (sub : string) (off : nat) (s : string) (k : nat) :
  Py.find_from sub off s = Some (off + k) → Py.find_from sub 0 s = Some k.
Proof.
  rewrite find_from_off. destruct (Py.find_from sub 0 s); cbn; [| discriminate].
  intros [= H]. f_equal. lia.
Qed.

Lemma length_take_drop (k : nat) (s u : string) :
  Py.drop k s = u → u ≠ "" → String.length (Py.take k s) = k.
Proof.
  intros Hd Hu.
  pose proof (f_equal String.length (take_drop_s k s)) as H.
  rewrite length_app_s, length_drop_s in H.
  pose proof (length_drop_s k s) as H2. rewrite Hd in H2.
  destruct u; [done |]. simpl in H2. lia.
Qed.

(** The first occurrence of [sub] at [k] splits the text there. *)
Lemma find_from_split (sub s : string) (off k : nat) :
  sub ≠ "" →
  Py.find_from sub off s = Some (off + k) →
  ∃ pre rest,
    s = pre +:+ sub +:+ rest ∧ String.length pre = k
    ∧ Py.drop (k + String.length sub) s = rest
    ∧ Py.take k s = pre.
Proof.
  intros Hsub H. apply find_from_Some in H as (k' & Hk & [r Hr] & _).
  assert (k' = k) as -> by lia.
  apply strip_prefix_Some in Hr.
  exists (Py.take k s), r. split_and!; [| | | done].
  - by rewrite <- Hr, take_drop_s.
  - apply (length_take_drop k s _ Hr). by destruct sub.
  - by rewrite <- drop_drop_s, Hr, drop_app_length.
Qed.

Lemma markers_not_empty : Mermaid.start_marker ≠ "" ∧ Mermaid.end_marker ≠ "".
Proof. split; intros H; by apply (f_equal String.length) in H. Qed.

Lemma extract_mermaid_code_Ok (content code : string) :
  Mermaid.extract_mermaid_code content = Ok code →
  ∃ idx k,
    Py.find_from Mermaid.start_marker 0 content = Some idx
    ∧ Py.find_from Mermaid.end_marker (idx + String.length Mermaid.start_marker)
        (Py.drop (idx + String.length Mermaid.start_marker) content)
      = Some (idx + String.length Mermaid.start_marker + k)
    ∧ code = Py.take k (Py.drop (idx + String.length Mermaid.start_marker) content).
Proof.
  unfold Mermaid.extract_mermaid_code, Py.find_at, Py.slice, Py.find.
  destruct (Py.find_from Mermaid.start_marker 0 content) as [idx|]; [| discriminate].
  destruct (Py.find_from Mermaid.end_marker _ _) as [end_idx|] eqn:E2; [| discriminate].
  intros H. destruct (find_from_Some _ _ _ _ E2) as (k & -> & _ & _).
  exists idx, k. split_and!; [done | done |].
  injection H as <-. f_equal. lia.
Qed.

(** X14. When the extraction succeeds, the text is made of what precedes the
    first opening fence, the fence line, the returned source, a line break
    with a closing fence, and the rest; the opening fence is the first of
    the text and the closing one the first after it. *)
Theorem extract_mermaid_code_sound (content code : string) :
  Mermaid.extract_mermaid_code content = Ok code →
  ∃ pre post,
    content = pre +:+ Mermaid.start_marker +:+ code +:+ Mermaid.end_marker +:+ post
    ∧ Py.find Mermaid.start_marker content = Some (String.length pre)
    ∧ Py.find Mermaid.end_marker (code +:+ Mermaid.end_marker +:+ post)
      = Some (String.length code).
Proof.
  intros H. apply extract_mermaid_code_Ok in H as (idx & k & E1 & E2 & ->).
  destruct (find_from_split _ _ 0 idx (proj1 markers_not_empty) E1)
    as (pre & rest & Hc & Hlen & Hrest & _).
  rewrite Hrest in *.
  destruct (find_from_split _ _ _ k (proj2 markers_not_empty) E2)
    as (code & post & Hr & Hlenc & _ & Htake).
  rewrite Htake. exists pre, post. split_and!.
  - by rewrite Hc, Hr.
  - unfold Py.find. by rewrite Hlen.
  - rewrite <- Hr, Hlenc. by apply find_from_shift in E2.
Qed.

Lemma X14_witness :
  let content := "# Flow" +:+ chr NEWLINE +:+ "```mermaid" +:+ chr NEWLINE
                 +:+ "graph TD" +:+ chr NEWLINE +:+ "```" +:+ chr NEWLINE in
  ∃ pre post,
    content = pre +:+ Mermaid.start_marker +:+ "graph TD" +:+ Mermaid.end_marker +:+ post
    ∧ Py.find Mermaid.start_marker content = Some (String.length pre)
    ∧ Py.find Mermaid.end_marker ("graph TD" +:+ Mermaid.end_marker +:+ post)
      = Some (String.length "graph TD").
Proof.
  intros content. apply (extract_mermaid_code_sound content "graph TD"). reflexivity.
Defined.

(** X15. The extraction raises only two errors, and tells them apart: the
    first when the text holds no opening fence line, the second when the
    first opening fence is followed by no line break with a closing fence. *)
Theorem extract_mermaid_code_errors (content : string) (e : exn) :
  Mermaid.extract_mermaid_code content = Raise e ↔
  (e = Mermaid.NOT_FOUND ∧ Py.contains Mermaid.start_marker content = false)
  ∨ (e = Mermaid.NOT_CLOSED
     ∧ ∃ idx, Py.find Mermaid.start_marker content = Some idx
              ∧ Py.contains Mermaid.end_marker
                  (Py.drop (idx + String.length Mermaid.start_marker) content) = false).
Proof.
  unfold Mermaid.extract_mermaid_code, Py.find_at, Py.find.
  destruct (Py.find_from Mermaid.start_marker 0 content) as [idx|] eqn:E1.
  - destruct (Py.find_from Mermaid.end_marker _ _) as [end_idx|] eqn:E2.
    + split; [discriminate |].
      intros [[_ Hc] | (_ & idx' & [= <-] & Hc)].
      * apply find_from_contains with (off := 0) in Hc. congruence.
      * apply find_from_contains
          with (off := idx + String.length Mermaid.start_marker) in Hc. congruence.
    + split.
      * intros [= <-]. right. split; [done |]. exists idx. split; [done |].
        by apply find_from_contains in E2.
      * intros [[_ Hc] | (-> & _)]; [| done].
        apply find_from_contains with (off := 0) in Hc. congruence.
  - split.
    + intros [= <-]. left. split; [done |]. by apply find_from_contains in E1.
    + intros [[-> _] | (_ & idx' & [=] & _)]. done.
Qed.

Lemma strip_prefix_app_split (p u w r : string) :
  Py.strip_prefix p (u +:+ w) = Some r → Py.strip_prefix p u = None →
  ∃ p2, p = u +:+ p2 ∧ p2 ≠ "" ∧ Py.strip_prefix p2 w = Some r.
Proof.
  revert u. induction p as [|a p IH]; intros u; [discriminate |].
  destruct u as [|b u].
  - rewrite app_nil_l_s. intros H _. by exists (String a p).
  - rewrite app_cons_s. cbn [Py.strip_prefix].
    destruct (Ascii.eqb_spec a b) as [-> | Hne]; [| discriminate].
    intros H1 H2. destruct (IH u H1 H2) as (p2 & -> & Hp2 & Hs).
    by exists p2.
Qed.

Lemma count_app_s (c : ascii) (a b : string) :
  Py.count c (a +:+ b) = Py.count c a + Py.count c b.
Proof.
  induction a as [|x a IH]; [reflexivity |].
  rewrite app_cons_s. cbn [Py.count]. rewrite IH. lia.
Qed.

Lemma find_from_here (sub : string) (off : nat) (s r : string) :
  Py.strip_prefix sub s = Some r → Py.find_from sub off s = Some off.
Proof. intros H. destruct s; cbn [Py.find_from]; by rewrite H. Qed.

(** A text that starts with a character it does not hold again is first
    found right after a text that does not contain it. *)
Lemma find_from_first (c : ascii) (bs a post : string) (off : nat) :
  Py.count c bs = 0 → Py.contains (String c bs) a = false →
  Py.find_from (String c bs) off (a +:+ String c bs +:+ post)
  = Some (off + String.length a).
Proof.
  intros Hbs. revert off. induction a as [|x a IH]; intros off Ha.
  - rewrite app_nil_l_s, (find_from_here _ _ _ _ (strip_prefix_app _ _)).
    f_equal. simpl. lia.
  - cbn [Py.contains] in Ha.
    destruct (Py.strip_prefix (String c bs) (String x a)) eqn:E; [discriminate |].
    rewrite app_cons_s. cbn [Py.find_from]. rewrite <- app_cons_s.
    destruct (Py.strip_prefix (String c bs) (String x a +:+ String c bs +:+ post))
      as [r|] eqn:E2.
    + exfalso. destruct (strip_prefix_app_split _ _ _ _ E2 E) as (p2 & Hp & Hne & Hs).
      injection Hp as -> ->. destruct p2 as [|d p2]; [done |].
      rewrite app_cons_s in Hs. cbn [Py.strip_prefix] in Hs.
      destruct (Ascii.eqb_spec d x) as [-> | ?]; [| discriminate].
      rewrite count_app_s in Hbs. cbn [Py.count] in Hbs.
      rewrite Ascii.eqb_refl in Hbs. lia.
    + rewrite (IH (S off) Ha). f_equal. simpl. lia.
Qed.

(** A text is first found right after a text without its first character. *)
Lemma find_from_after_plain (c : ascii) (bs a post : string) (off : nat) :
  Py.count c a = 0 →
  Py.find_from (String c bs) off (a +:+ String c bs +:+ post)
  = Some (off + String.length a).
Proof.
  revert off. induction a as [|x a IH]; intros off Ha.
  - rewrite app_nil_l_s, (find_from_here _ _ _ _ (strip_prefix_app _ _)).
    f_equal. simpl. lia.
  - apply count_cons_0 in Ha as [Hx Ha].
    rewrite app_cons_s. cbn [Py.find_from Py.strip_prefix].
    rewrite Ascii.eqb_sym in Hx. rewrite Hx, (IH (S off) Ha). f_equal. simpl. lia.
Qed.

(** X16. A block whose fence line follows a text without backticks, and
    whose source holds no line break followed by three backticks, is
    extracted exactly, whatever comes after its closing fence. *)
Theorem extract_mermaid_code_complete (pre code post : string) :
  Py.count BACKTICK pre = 0 →
  Py.contains Mermaid.end_marker code = false →
  Mermaid.extract_mermaid_code
    (pre +:+ Mermaid.start_marker +:+ code +:+ Mermaid.end_marker +:+ post)
  = Ok code.
Proof.
  intros Hpre Hcode. unfold Mermaid.extract_mermaid_code, Py.find, Py.find_at, Py.slice.
  change Mermaid.start_marker with (String BACKTICK ("``mermaid" +:+ chr NEWLINE)) at 1 2.
  rewrite (find_from_after_plain BACKTICK _ pre _ 0 Hpre). cbn [Nat.add].
  change (String BACKTICK ("``mermaid" +:+ chr NEWLINE)) with Mermaid.start_marker.
  assert (Py.drop (String.length pre + String.length Mermaid.start_marker)
            (pre +:+ Mermaid.start_marker +:+ code +:+ Mermaid.end_marker +:+ post)
          = code +:+ Mermaid.end_marker +:+ post) as ->.
  { by rewrite <- drop_drop_s, !drop_app_length. }
  change Mermaid.end_marker with (String NEWLINE "```") in *.
  rewrite (find_from_first NEWLINE "```" code post _ eq_refl Hcode).
  f_equal.
  replace (String.length pre + String.length Mermaid.start_marker + String.length code
           - (String.length pre + String.length Mermaid.start_marker))
    with (String.length code) by lia.
  apply take_app_length.
Qed.

Lemma X16_witness :
  Mermaid.extract_mermaid_code
    (("# Flow" +:+ chr NEWLINE) +:+ Mermaid.start_marker +:+ "graph TD"
     +:+ Mermaid.end_marker +:+ chr NEWLINE)
  = Ok "graph TD".
Proof.
  apply (extract_mermaid_code_complete ("# Flow" +:+ chr NEWLINE) "graph TD" (chr NEWLINE));
    reflexivity.
Defined.

(** X17. An empty block, whose closing fence stands on the line right after
    the opening fence line, is reported as not closed when the rest of the
    text holds no further line that starts with three backticks: the line
    break before the closing fence belongs to the opening fence line. *)
Theorem extract_mermaid_code_empty_block (pre post : string) :
  Py.count BACKTICK pre = 0 →
  Py.contains Mermaid.end_marker post = false →
  Mermaid.extract_mermaid_code (pre +:+ Mermaid.start_marker +:+ "```" +:+ post)
  = Raise Mermaid.NOT_CLOSED.
Proof.
  intros Hpre Hpost. unfold Mermaid.extract_mermaid_code, Py.find, Py.find_at.
  change Mermaid.start_marker with (String BACKTICK ("``mermaid" +:+ chr NEWLINE)) at 1 2.
  rewrite (find_from_after_plain BACKTICK _ pre _ 0 Hpre). cbn [Nat.add].
  change (String BACKTICK ("``mermaid" +:+ chr NEWLINE)) with Mermaid.start_marker.
  assert (Py.drop (String.length pre + String.length Mermaid.start_marker)
            (pre +:+ Mermaid.start_marker +:+ "```" +:+ post)
          = "```" +:+ post) as ->.
  { by rewrite <- drop_drop_s, !drop_app_length. }
  assert (Py.find_from Mermaid.end_marker
            (String.length pre + String.length Mermaid.start_marker) ("```" +:+ post)
          = None) as ->; [| reflexivity].
  apply find_from_contains.
  rewrite !app_cons_s, app_nil_l_s.
  change Mermaid.end_marker with (String NEWLINE "```") in *.
  cbn [Py.contains Py.strip_prefix].
  change (Ascii.eqb NEWLINE BACKTICK) with false. cbn iota.
  exact Hpost.
Qed.

Lemma X17_witness :
  Mermaid.extract_mermaid_code
    (("# Flow" +:+ chr NEWLINE) +:+ Mermaid.start_marker +:+ "```" +:+ chr NEWLINE)
  = Raise Mermaid.NOT_CLOSED.
Proof.
  apply (extract_mermaid_code_empty_block ("# Flow" +:+ chr NEWLINE) (chr NEWLINE));
    reflexivity.
Defined.

End MermaidBlock.

(** ** Flattening and the comparison of two locale files *)

Section LocaleMore.
Import Locale LocaleMain.

Lemma leaf_of_not_dict (v w : yaml) (path : list string) :
  leaf_of v path w → ∀ d, w ≠ YDict d.
Proof. induction 1; done. Qed.

Lemma dotted_prefix (sep p : string) (path : list string) :
  p ≠ "" → ∃ rest, dotted sep p path = p +:+ rest.
Proof.
  revert p. induction path as [|k path IH]; intros p Hp; cbn [dotted].
  - exists "". by rewrite app_nil_r_s.
  - destruct (new_key_nonempty p sep k Hp) as [Hk Hne].
    destruct (IH _ Hne) as [rest ->]. rewrite Hk.
    exists (sep +:+ k +:+ rest). by rewrite !app_assoc_s.
Qed.

Lemma flatten_dict_lookup (d : list (string * yaml)) (parent_key sep key : string)
    (w : yaml) :
  flatten_dict d parent_key sep !! key = Some w →
  ∃ k0 v0 path, (k0, v0) ∈ d ∧ leaf_of v0 path w
                ∧ key = dotted sep (new_key parent_key sep k0) path.
Proof.
  intros H. apply py_dict_lookup_Some, elem_of_loop_items in H as (k0 & v0 & Hin & H).
  apply entry_items_sound in H as (path & Hleaf & ->). by exists k0, v0, path.
Qed.

(** X18. Under a non-empty parent key, every key of the flattened mapping
    is the parent key, the separator and a rest, whatever the separator; and
    no value of a flattened mapping is itself a mapping. *)
Theorem flatten_dict_keys_start_with_parent (d : list (string * yaml))
    (parent_key sep key : string) (w : yaml) :
  parent_key ≠ "" →
  flatten_dict d parent_key sep !! key = Some w →
  (∃ rest, key = parent_key +:+ sep +:+ rest) ∧ ∀ d', w ≠ YDict d'.
Proof.
  intros Hp H. apply flatten_dict_lookup in H as (k0 & v0 & path & _ & Hleaf & ->).
  split; [| by eapply leaf_of_not_dict].
  destruct (new_key_nonempty parent_key sep k0 Hp) as [Hk Hne].
  destruct (dotted_prefix sep _ path Hne) as [rest ->]. rewrite Hk.
  exists (k0 +:+ rest). by rewrite !app_assoc_s.
Qed.

Lemma X18_witness :
  (∃ rest, "app/menu/title" = "app" +:+ "/" +:+ rest)
  ∧ ∀ d', YScalar "Menu" ≠ YDict d'.
Proof.
  apply (flatten_dict_keys_start_with_parent
           [("menu", YDict [("title", YScalar "Menu")])] "app" "/" "app/menu/title");
    [discriminate | vm_compute; reflexivity].
Defined.

Lemma foldl_insert_union (items : list (string * yaml)) (m0 : gmap string yaml) :
  foldl (λ m kv, <[kv.1 := kv.2]> m) m0 items = py_dict items ∪ m0.
Proof.
  unfold py_dict. revert m0. induction items as [|[k v] items IH]; intros m0.
  - cbn [foldl]. by rewrite (left_id_L ∅ (∪)).
  - cbn [foldl fst snd]. rewrite (IH (<[k:=v]> m0)), (IH (<[k:=v]> ∅)).
    by rewrite <- (assoc_L (∪)), <- insert_union_l, (left_id_L ∅ (∪)).
Qed.

Lemma py_dict_app (l1 l2 : list (string * yaml)) :
  py_dict (l1 ++ l2) = py_dict l2 ∪ py_dict l1.
Proof. unfold py_dict at 1. rewrite foldl_app. apply foldl_insert_union. Qed.

Lemma loop_items_app (parent_key sep : string) (d1 d2 : list (string * yaml)) :
  loop_items parent_key sep (d1 ++ d2)
  = loop_items parent_key sep d1 ++ loop_items parent_key sep d2.
Proof.
  induction d1 as [|[k v] d1 IH]; [reflexivity |].
  cbn [app loop_items]. by rewrite IH, app_assoc.
Qed.

Lemma flatten_dict_app (d1 d2 : list (string * yaml)) (parent_key sep : string) :
  flatten_dict (d1 ++ d2) parent_key sep
  = flatten_dict d2 parent_key sep ∪ flatten_dict d1 parent_key sep.
Proof. unfold flatten_dict. by rewrite loop_items_app, py_dict_app. Qed.

(** X19. Flattening goes through the entries in order, and where two
    entries lead to the same flattened key the later one silently wins: the
    result for entries [d1] followed by [d2] is the result for [d2], completed
    by the keys of the result for [d1] that [d2] does not produce. *)
Theorem flatten_dict_later_entry_wins (d1 d2 : list (string * yaml))
    (parent_key sep key : string) :
  flatten_dict (d1 ++ d2) parent_key sep
  = flatten_dict d2 parent_key sep ∪ flatten_dict d1 parent_key sep
  ∧ flatten_dict (d1 ++ d2) parent_key sep !! key
    = match flatten_dict d2 parent_key sep !! key with
      | Some w => Some w
      | None => flatten_dict d1 parent_key sep !! key
      end.
Proof.
  split; [apply flatten_dict_app |].
  rewrite flatten_dict_app, lookup_union.
  by destruct (flatten_dict d2 parent_key sep !! key),
              (flatten_dict d1 parent_key sep !! key).
Qed.

Lemma loop_items_flat (sep : string) (d : list (string * yaml)) :
  Forall (λ kv, ∀ d', kv.2 ≠ YDict d') d → loop_items "" sep d = d.
Proof.
  induction 1 as [|[k v] d Hv Hd IH]; [reflexivity |].
  cbn [loop_items]. rewrite IH. cbn [snd] in Hv.
  destruct v as [s | l | d0]; [reflexivity | reflexivity | by destruct (Hv d0)].
Qed.

Lemma py_dict_map_to_list (m : gmap string yaml) : py_dict (map_to_list m) = m.
Proof.
  apply map_eq. intros k. destruct (m !! k) as [v|] eqn:E.
  - destruct (py_dict_lookup_is_Some (map_to_list m) k v) as [v' Hv'].
    { by apply elem_of_map_to_list. }
    rewrite Hv'. apply py_dict_lookup_Some, elem_of_map_to_list in Hv'. congruence.
  - destruct (py_dict (map_to_list m) !! k) as [v'|] eqn:E'; [| done].
    apply py_dict_lookup_Some, elem_of_map_to_list in E'. congruence.
Qed.

(** X20. A mapping without nested mappings is its own flattening, and so
    flattening is idempotent: flattening the entries of a flattened mapping,
    with any separator, gives the same mapping again. *)
Theorem flatten_dict_idempotent (d : list (string * yaml)) (parent_key sep sep' : string) :
  (Forall (λ kv, ∀ d', kv.2 ≠ YDict d') d → flatten_dict d "" sep = py_dict d)
  ∧ flatten_dict (map_to_list (flatten_dict d parent_key sep)) "" sep'
    = flatten_dict d parent_key sep.
Proof.
  split.
  - intros H. unfold flatten_dict. by rewrite loop_items_flat.
  - unfold flatten_dict at 1. rewrite loop_items_flat; [apply py_dict_map_to_list |].
    apply Forall_forall. intros [k w] Hin d'. cbn [snd].
    apply elem_of_map_to_list, flatten_dict_lookup in Hin as (k0 & v0 & path & _ & Hleaf & _).
    by eapply leaf_of_not_dict.
Qed.

Lemma X20_witness :
  flatten_dict [("a", YScalar "x"); ("b", YList [])] "" "/"
  = py_dict [("a", YScalar "x"); ("b", YList [])].
Proof.
  apply (proj1 (flatten_dict_idempotent [("a", YScalar "x"); ("b", YList [])] "" "/" "/")).
  repeat (apply List.Forall_cons; [intros d'; cbn [snd]; discriminate |]).
  apply List.Forall_nil.
Defined.

Lemma entry_items_empty_dict (parent_key sep k : string) :
  entry_items parent_key sep k (YDict []) = [].
Proof. rewrite entry_items_dict. apply map_to_list_empty. Qed.

(** X21. An entry whose value is an empty mapping leaves no trace in the
    flattened mapping: with or without it the result is the same, so such a
    key of the English file is never asked of a translation. *)
Theorem flatten_dict_drops_empty_mapping (d1 d2 : list (string * yaml))
    (k parent_key sep : string) :
  flatten_dict (d1 ++ (k, YDict []) :: d2) parent_key sep
  = flatten_dict (d1 ++ d2) parent_key sep.
Proof.
  unfold flatten_dict. rewrite !loop_items_app. cbn [loop_items].
  by rewrite entry_items_empty_dict.
Qed.







End LocaleMore.


(** ** What the patterns accept *)

Section Parser.
Import Announce.

Lemma match_here_star (k : Re.cclass) (p : Re.pattern) (st : Re.mstate) (s : string) :
  Re.match_here (Re.Star k :: p) st s =
    match s with
    | String c s' =>
        if Re.cmatch k c then
          match Re.match_here (Re.Star k :: p) st s' with
          | Some r => Some r
          | None => Re.match_here p st s
          end
        else Re.match_here p st s
    | EmptyString => Re.match_here p st s
    end.
Proof. destruct s; reflexivity. Qed.

Lemma match_here_plus (k : Re.cclass) (p : Re.pattern) (st : Re.mstate) (s : string) :
  Re.match_here (Re.Plus k :: p) st s =
    match s with
    | String c s' => if Re.cmatch k c then Re.match_here (Re.Star k :: p) st s' else None
    | EmptyString => None
    end.
Proof. destruct s; reflexivity. Qed.

Lemma match_here_gopen (n : nat) (p : Re.pattern) (st : Re.mstate) (s : string) :
  Re.match_here (Re.GOpen n :: p) st s = Re.match_here p (Re.open_group n s st) s.
Proof. reflexivity. Qed.

Lemma match_here_gclose (n : nat) (p : Re.pattern) (st : Re.mstate) (s : string) :
  Re.match_here (Re.GClose n :: p) st s = Re.match_here p (Re.close_group n s st) s.
Proof. reflexivity. Qed.

Lemma dec_lit (l : string) (p : Re.pattern) (st : Re.mstate) (s : string)
    (r : string * Re.mstate) :
  Re.match_here (Re.Lit l :: p) st s = Some r →
  ∃ s', s = l +:+ s' ∧ Re.match_here p st s' = Some r.
Proof.
  rewrite match_here_lit. destruct (Py.strip_prefix l s) as [s'|] eqn:E; [| discriminate].
  intros H. exists s'. split; [by apply strip_prefix_Some | done].
Qed.

Lemma dec_star (k : Re.cclass) (p : Re.pattern) (st : Re.mstate) (s : string)
    (r : string * Re.mstate) :
  Re.match_here (Re.Star k :: p) st s = Some r →
  ∃ a s', s = a +:+ s' ∧ forallb_s (Re.cmatch k) a = true
          ∧ Re.match_here p st s' = Some r.
Proof.
  induction s as [|c s IH]; rewrite match_here_star.
  - intros H. by exists "", "".
  - destruct (Re.cmatch k c) eqn:Ec; [| intros H; by exists "", (String c s)].
    destruct (Re.match_here (Re.Star k :: p) st s) as [r0|] eqn:E.
    + intros [= <-]. destruct (IH eq_refl) as (a & s' & -> & Ha & Hm).
      exists (String c a), s'. split_and!; [done | | done].
      cbn [forallb_s]. by rewrite Ec, Ha.
    + intros H. by exists "", (String c s).
Qed.

Lemma dec_plus (k : Re.cclass) (p : Re.pattern) (st : Re.mstate) (s : string)
    (r : string * Re.mstate) :
  Re.match_here (Re.Plus k :: p) st s = Some r →
  ∃ a s', s = a +:+ s' ∧ a ≠ "" ∧ forallb_s (Re.cmatch k) a = true
          ∧ Re.match_here p st s' = Some r.
Proof.
  rewrite match_here_plus. destruct s as [|c s]; [discriminate |].
  destruct (Re.cmatch k c) eqn:Ec; [| discriminate].
  intros H. apply dec_star in H as (a & s' & -> & Ha & Hm).
  exists (String c a), s'. split_and!; [done | done | | done].
  cbn [forallb_s]. by rewrite Ec, Ha.
Qed.

(** A greedy repetition that can take all of [a] and no more, followed by a
    rest of the pattern that matches there, succeeds with that match. *)
Lemma star_hit (k : Re.cclass) (p : Re.pattern) (st : Re.mstate) (a s : string)
    (r : string * Re.mstate) :
  forallb_s (Re.cmatch k) a = true → stops (Re.cmatch k) s = true →
  Re.match_here p st s = Some r →
  Re.match_here (Re.Star k :: p) st (a +:+ s) = Some r.
Proof.
  intros Ha Hs Hm. induction a as [|c a IH].
  - rewrite app_nil_l_s, match_here_star. destruct s as [|c s]; [done |].
    cbn [stops] in Hs. apply negb_true_iff in Hs. by rewrite Hs.
  - cbn [forallb_s] in Ha. apply andb_true_iff in Ha as [Hc Ha].
    rewrite app_cons_s, match_here_star, Hc, (IH Ha). done.
Qed.

Lemma plus_hit (k : Re.cclass) (p : Re.pattern) (st : Re.mstate) (a s : string)
    (r : string * Re.mstate) :
  a ≠ "" → forallb_s (Re.cmatch k) a = true → stops (Re.cmatch k) s = true →
  Re.match_here p st s = Some r →
  Re.match_here (Re.Plus k :: p) st (a +:+ s) = Some r.
Proof.
  intros Hne Ha Hs Hm. destruct a as [|c a]; [done |].
  cbn [forallb_s] in Ha. apply andb_true_iff in Ha as [Hc Ha].
  rewrite app_cons_s, match_here_plus, Hc. by apply star_hit.
Qed.

Lemma group_close_open (n : nat) (g s : string) (st : Re.mstate) :
  Re.group n (Re.close_group n s (Re.open_group n (g +:+ s) st)) = g.
Proof.
  unfold Re.group, Re.close_group, Re.open_group. cbn [Re.opened Re.assoc Re.groups].
  rewrite Nat.eqb_refl. cbn [Re.groups Re.assoc]. rewrite Nat.eqb_refl. cbn [default].
  apply take_diff_s.
Qed.

Lemma group_close_open_other (n m : nat) (s1 s2 : string) (st : Re.mstate) :
  n ≠ m → Re.group n (Re.close_group m s2 (Re.open_group m s1 st)) = Re.group n st.
Proof.
  intros Hne. unfold Re.group, Re.close_group, Re.open_group.
  cbn [Re.opened Re.assoc Re.groups]. rewrite Nat.eqb_refl. cbn [Re.groups Re.assoc].
  apply Nat.eqb_neq in Hne. by rewrite Hne.
Qed.

Lemma not_quote_count (g : string) :
  forallb_s (Re.cmatch (Re.NotChar DQUOTE)) g = true ↔ Py.count DQUOTE g = 0.
Proof.
  induction g as [|c g IH]; [done |].
  cbn [forallb_s Py.count Re.cmatch]. rewrite andb_true_iff, IH, negb_true_iff.
  destruct (Ascii.eqb c DQUOTE); cbn [Nat.add].
  - split; [intros [H _]; discriminate | lia].
  - split; [intros [_ H]; exact H | intros H; split; [reflexivity | exact H]].
Qed.

Lemma dec_field (name : string) (n : nat) (p : Re.pattern) (st : Re.mstate) (s : string)
    (r : string * Re.mstate) :
  Re.match_here (field name n ++ p) st s = Some r →
  ∃ g s', quoted g
          ∧ Re.match_here p
              (Re.close_group n (Q +:+ s') (Re.open_group n (g +:+ Q +:+ s') st)) s'
            = Some r.
Proof.
  unfold field. cbn [app]. intros H.
  apply dec_star in H as (a1 & s1 & -> & _ & H).
  apply dec_lit in H as (s2 & -> & H).
  apply dec_star in H as (a2 & s3 & -> & _ & H).
  apply dec_lit in H as (s4 & -> & H).
  rewrite match_here_gopen in H.
  apply dec_plus in H as (g & s5 & -> & Hne & Hg & H).
  rewrite match_here_gclose in H.
  apply dec_lit in H as (s6 & -> & H).
  exists g, s6. split; [| exact H]. split; [exact Hne | by apply not_quote_count].
Qed.

Lemma ann_pattern_groups (s rest : string) (st : Re.mstate) :
  Re.match_here ann_pattern Re.mstate0 s = Some (rest, st) →
  quoted (Re.group 1 st) ∧ quoted (Re.group 2 st) ∧ quoted (Re.group 3 st).
Proof.
  unfold ann_pattern. cbn [app]. intros H.
  apply dec_lit in H as (s1 & -> & H).
  apply dec_star in H as (a1 & s2 & -> & _ & H).
  apply dec_lit in H as (s3 & -> & H).
  apply dec_field in H as (g1 & s4 & Hg1 & H).
  apply dec_field in H as (g2 & s5 & Hg2 & H).
  apply dec_field in H as (g3 & s6 & Hg3 & H).
  apply dec_star in H as (a2 & s7 & -> & _ & H).
  apply dec_lit in H as (s8 & -> & H).
  cbn [Re.match_here] in H. injection H as <- <-.
  rewrite group_close_open.
  rewrite (group_close_open_other 2 3), group_close_open by lia.
  rewrite (group_close_open_other 1 3), (group_close_open_other 1 2), group_close_open by lia.
  done.
Qed.

Lemma finditer_from_matches (p : Re.pattern) (skip : nat) (s : string) (st : Re.mstate) :
  st ∈ Re.finditer_from p skip s →
  ∃ s0 rest, Re.match_here p Re.mstate0 s0 = Some (rest, st).
Proof.
  revert skip. induction s as [|c s IH]; intros skip; cbn [Re.finditer_from].
  - destruct skip; [| by intros ?%elem_of_nil].
    destruct (Re.match_here p Re.mstate0 "") as [[rest st0]|] eqn:E;
      [| by intros ?%elem_of_nil].
    intros ->%list_elem_of_singleton. by exists "", rest.
  - destruct skip as [|k]; [| apply IH].
    destruct (Re.match_here p Re.mstate0 (String c s)) as [[rest st0]|] eqn:E; [| apply IH].
    intros [-> | Hin]%elem_of_cons; [by exists (String c s), rest | by eapply IH].
Qed.

Lemma unescape_not_empty (g : string) : g ≠ "" → unescape g ≠ "".
Proof.
  destruct g as [|c g]; [done |]. intros _. cbn [unescape].
  destruct (Ascii.eqb c BSLASH); [| done].
  destruct g as [|d g]; [done |].
  by destruct (Ascii.eqb d "n"), (Ascii.eqb d BSLASH), (Ascii.eqb d DQUOTE).
Qed.

Lemma unescape_no_quote_upto (n : nat) (g : string) :
  String.length g ≤ n → Py.count DQUOTE g = 0 → Py.count DQUOTE (unescape g) = 0.
Proof.
  revert g. induction n as [|n IH]; intros g Hn Hg.
  - destruct g; [done | simpl in Hn; lia].
  - destruct g as [|c g]; [done |]. simpl in Hn.
    apply count_cons_0 in Hg as [Hc Hg]. cbn [unescape].
    destruct (Ascii.eqb c BSLASH) eqn:Eb.
    + destruct g as [|d g].
      * cbn [unescape Py.count]. by rewrite Hc.
      * simpl in Hn. apply count_cons_0 in Hg as [Hd Hg].
        pose proof (IH g ltac:(lia) Hg) as H1.
        pose proof (IH (String d g) ltac:(simpl; lia)
                      ltac:(cbn [Py.count]; rewrite Hd; exact Hg)) as H2.
        destruct (Ascii.eqb d "n"); [exact H1 |].
        destruct (Ascii.eqb d BSLASH); [exact H1 |].
        rewrite Hd. cbn [Py.count]. by rewrite Hc, H2.
    + cbn [Py.count]. rewrite Hc. apply IH; [lia | exact Hg].
Qed.

Lemma unescape_quoted (g : string) : quoted g → quoted (unescape g).
Proof.
  intros [Hne Hq]. split; [by apply unescape_not_empty |].
  by apply (unescape_no_quote_upto (String.length g)).
Qed.

(** X24. Every record the parser returns has a version, a title and a
    content that are not empty and hold no double quote: no record with an
    empty field is returned, and no decoded field holds a double quote, not
    even one written with a backslash in the file. *)
Theorem parsed_fields_are_quoted_texts (file_content : string)
    (anns : list announcement) (start_line end_line : nat) (ann : announcement) :
  parse_announcements file_content = Ok (anns, start_line, end_line) →
  ann ∈ anns →
  quoted (version ann) ∧ quoted (title ann) ∧ quoted (content ann).
Proof.
  unfold parse_announcements.
  destruct (Re.search array_pattern file_content) as [m|]; [| discriminate].
  intros [= <- _ _] Hin. apply list_elem_of_fmap in Hin as (st & -> & Hin).
  apply finditer_from_matches in Hin as (s0 & rest & Hm).
  apply ann_pattern_groups in Hm as (H1 & H2 & H3).
  unfold decode. cbn [version title content].
  split_and!; by apply unescape_quoted.
Qed.

Lemma X24_witness :
  quoted "0.6.0" ∧ quoted "T6" ∧ quoted "six".
Proof.
  apply (parsed_fields_are_quoted_texts Samples.doc_two_records
           [Announcement "0.5.0" "Old" "first"; Announcement "0.6.0" "T6" "six"] 2 14
           (Announcement "0.6.0" "T6" "six")).
  - vm_compute. reflexivity.
  - right. left.
Defined.

Lemma count_literal (l : string) (a b : string) :
  Py.count NEWLINE l = 0 →
  Py.count NEWLINE (a +:+ l +:+ b) = Py.count NEWLINE a + Py.count NEWLINE b.
Proof. intros Hl. rewrite !count_app_s, Hl. lia. Qed.



End Parser.

(** ** The version read from Cargo.toml *)

Section CargoVersion.
Import Announce.

Lemma search_from_first (p : Re.pattern) (off k : nat) (s rest : string) (st : Re.mstate) :
  (∀ j, j < k → Re.match_here p Re.mstate0 (Py.drop j s) = None) →
  Re.match_here p Re.mstate0 (Py.drop k s) = Some (rest, st) →
  Re.search_from p off s = Some (off + k, rest, st).
Proof.
  revert off s. induction k as [|k IH]; intros off s Hlt Hm.
  - cbn [Py.drop] in Hm. rewrite Nat.add_0_r.
    destruct s; cbn [Re.search_from]; by rewrite Hm.
  - pose proof (Hlt 0 ltac:(lia)) as H0. cbn [Py.drop] in H0.
    replace (off + S k) with (S off + k) by lia.
    destruct s as [|c s]; cbn [Re.search_from]; rewrite H0.
    + cbn [Py.drop] in Hm. congruence.
    + apply (IH (S off) s); [| exact Hm].
      intros j Hj. apply (Hlt (S j)). lia.
Qed.




Lemma space_count (ws : string) (c : ascii) :
  forallb_s Re.is_space ws = true → Re.is_space c = false → Py.count c ws = 0.
Proof.
  intros Hws Hc. induction ws as [|a ws IH]; [done |].
  cbn [forallb_s] in Hws. apply andb_true_iff in Hws as [Ha Hws].
  cbn [Py.count]. rewrite (IH Hws).
  destruct (Ascii.eqb_spec a c) as [-> | _]; [congruence | done].
Qed.

(** X27. The version returned is the one at the first place of the file
    where the word version stands, when what follows it there is white
    space, an equals sign, white space and a quoted text: whatever precedes
    the word, even on the same line, and whatever follows the closing quote. *)
Theorem get_version_from_cargo_toml_first (pre ws1 ws2 v post : string) :
  Py.contains "version" pre = false →
  forallb_s Re.is_space ws1 = true → forallb_s Re.is_space ws2 = true →
  quoted v →
  Cargo.get_version_from_cargo_toml
    (Some (pre +:+ "version" +:+ ws1 +:+ "=" +:+ ws2 +:+ Q +:+ v +:+ Q +:+ post))
  = Some v.
Proof.
  intros Hpre Hw1 Hw2 [Hne Hq].
  set (tail := ws1 +:+ "=" +:+ ws2 +:+ Q +:+ v +:+ Q +:+ post).
  pose proof (find_from_first "v" "ersion" pre tail 0 eq_refl Hpre) as Hf.
  apply find_from_Some in Hf as (k & Hk & _ & Hlt). cbn [Nat.add] in Hk. subst k.
  unfold Cargo.get_version_from_cargo_toml, Re.search.
  rewrite (search_from_first Cargo.version_pattern 0 (String.length pre) _ post
             (Re.close_group 1 (Q +:+ post) (Re.open_group 1 (v +:+ Q +:+ post) Re.mstate0))).
  - cbn [Re.m_state]. by rewrite group_close_open.
  - intros j Hj. unfold Cargo.version_pattern. rewrite match_here_lit.
    by rewrite (Hlt j Hj).
  - rewrite drop_app_length. unfold Cargo.version_pattern, tail.
    rewrite match_here_lit, strip_prefix_app.
    apply star_hit; [exact Hw1 | reflexivity |].
    rewrite match_here_lit, strip_prefix_app.
    apply star_hit; [exact Hw2 | reflexivity |].
    rewrite match_here_lit, strip_prefix_app, match_here_gopen.
    apply plus_hit; [exact Hne | by apply not_quote_count | reflexivity |].
    rewrite match_here_gclose, match_here_lit, strip_prefix_app. reflexivity.
Qed.

Lemma X27_witness :
  Cargo.get_version_from_cargo_toml
    (Some (("[package]" +:+ NL +:+ "rust-") +:+ "version" +:+ " " +:+ "=" +:+ " "
           +:+ Q +:+ "1.70" +:+ Q
           +:+ (NL +:+ "version = " +:+ Q +:+ "0.6.0" +:+ Q +:+ NL)))
  = Some "1.70".
Proof.
  apply (get_version_from_cargo_toml_first ("[package]" +:+ NL +:+ "rust-") " " " " "1.70"
           (NL +:+ "version = " +:+ Q +:+ "0.6.0" +:+ Q +:+ NL));
    try reflexivity.
  split; [discriminate | reflexivity].
Defined.

End CargoVersion.

(** ** Contents the substitution rejects *)

Section BadEscape.
Import Announce.

Ltac plain_literal :=
  repeat first [apply safe_nil | apply safe_char; [discriminate |]].

Lemma letter_not_digit (d : ascii) :
  Template.is_ascii_letter d = true →
  Ascii.eqb d "0" = false ∧ Template.digit d = None
  ∧ Ascii.eqb d NEWLINE = false ∧ Ascii.eqb d DQUOTE = false.
Proof.
  intros H. destruct d as [[] [] [] [] [] [] [] []]; vm_compute in H;
    try discriminate H; vm_compute; done.
Qed.

Lemma parse_bad_escape (n : nat) (d : ascii) (ts : list Template.token) :
  bad_escape d = true →
  Template.parse_tokens n None (Template.TEsc d :: ts) = Raise (ReError "bad escape").
Proof.
  unfold bad_escape. rewrite !andb_true_iff, negb_true_iff. intros [[Hl Hg] He].
  destruct (letter_not_digit d Hl) as (H0 & Hd & _).
  cbn [Template.parse_tokens]. rewrite Hg, H0, Hd, Hl.
  by destruct (Template.escapes d).
Qed.

Lemma bad_escape_fails (n : nat) (d : ascii) (rest : string) :
  bad_escape d = true →
  ∃ e, Template.parse_template n (String BSLASH (String d rest)) = Raise e.
Proof.
  intros Hd. unfold Template.parse_template. rewrite tokenize_esc.
  destruct (Template.tokenize rest) as [ts|e]; cbn [rmap rbind]; [| by eexists].
  rewrite (parse_bad_escape n d ts Hd). by eexists.
Qed.

Lemma safe_prefix_fails (n : nat) (a : string) :
  safe a →
  ∀ rest, (∃ e, Template.parse_template n rest = Raise e) →
          ∃ e, Template.parse_template n (a +:+ rest) = Raise e.
Proof.
  unfold Template.parse_template.
  induction 1 as [| c r Hc Hr IH | r Hr IH | r Hr IH]; intros rest Hrest;
    [exact Hrest | | |]; destruct (IH rest Hrest) as [e He];
    rewrite ?app_cons_s.
  - rewrite tokenize_char by (by apply Ascii.eqb_neq).
    destruct (Template.tokenize (r +:+ rest)) as [ts|e0]; cbn [rmap rbind] in *;
      [| by eexists].
    rewrite parse_char, He. by eexists.
  - rewrite tokenize_esc.
    destruct (Template.tokenize (r +:+ rest)) as [ts|e0]; cbn [rmap rbind] in *;
      [| by eexists].
    rewrite parse_esc_bslash, He. by eexists.
  - rewrite tokenize_esc.
    destruct (Template.tokenize (r +:+ rest)) as [ts|e0]; cbn [rmap rbind] in *;
      [| by eexists].
    rewrite parse_esc_quote, He. by eexists.
Qed.

Lemma group_1_newline_fails (rest : string) :
  (∃ e, Template.parse_template 3 rest = Raise e) →
  ∃ e, Template.parse_template 3 (String BSLASH "1" +:+ String BSLASH "n" +:+ rest) = Raise e.
Proof.
  unfold Template.parse_template. intros [e He].
  rewrite !app_cons_s, !app_nil_l_s, !tokenize_esc.
  destruct (Template.tokenize rest) as [ts|e0]; cbn [rmap rbind] in *; [| by eexists].
  rewrite parse_group_1_newline, He. by eexists.
Qed.

Lemma join_prefix (X Y : list string) (y : string) :
  Forall safe X →
  ∃ P T, safe P ∧ Py.join NL (X ++ y :: Y) = P +:+ y +:+ T.
Proof.
  induction 1 as [|x X Hx HX IH].
  - exists "". destruct Y as [|z Y].
    + exists "". split; [constructor |]. cbn [app]. unfold Py.join. cbn [String.concat].
      by rewrite app_nil_l_s, app_nil_r_s.
    + exists (NL +:+ Py.join NL (z :: Y)). split; [constructor |].
      cbn [app]. by rewrite join_cons_cons.
  - destruct IH as (P & T & HP & IH).
    exists (x +:+ NL +:+ P), T. split.
    + apply safe_app; [exact Hx |]. apply safe_app; [plain_literal | exact HP].
    + cbn [app]. destruct (X ++ y :: Y) as [|z Z] eqn:E; [by destruct X |].
      by rewrite join_cons_cons, IH, !app_assoc_s.
Qed.

Lemma replacement_rejects (l1 l2 : list announcement) (v t a b : string) (d : ascii) :
  Forall (λ ann, Py.count BSLASH (content ann) = 0) l1 →
  Py.count BSLASH a = 0 → bad_escape d = true →
  ∃ e, Template.parse_template 3
         (replacement (l1 ++ Announcement v t (a +:+ String BSLASH (String d b)) :: l2))
       = Raise e.
Proof.
  intros Hl1 Ha Hd. unfold replacement.
  set (lc := "        content: " +:+ Q
             +:+ format_content (a +:+ String BSLASH (String d b)) +:+ Q +:+ ",").
  assert (∃ X Y, Forall safe X
                 ∧ array_lines (l1 ++ Announcement v t (a +:+ String BSLASH (String d b)) :: l2)
                   = X ++ lc :: Y) as (X & Y & HX & ->).
  { exists (("    // Add version-specific announcements here"
             :: concat (map render_ann l1))
            ++ ["    VersionAnnouncement {";
                "        version: " +:+ Q +:+ escape_rust_string v +:+ Q +:+ ",";
                "        title: " +:+ Q +:+ escape_rust_string t +:+ Q +:+ ","]),
           ("    }," :: concat (map render_ann l2)).
    split.
    - apply Forall_app. split; [exact (safe_array_lines l1 Hl1) |].
      apply List.Forall_cons; [plain_literal |].
      apply List.Forall_cons;
        [apply safe_field; [plain_literal | apply safe_escape_rust_string] |].
      apply List.Forall_cons;
        [apply safe_field; [plain_literal | apply safe_escape_rust_string] |].
      apply List.Forall_nil.
    - unfold array_lines. rewrite map_app, concat_app. cbn [map concat].
      unfold render_ann at 2. cbn [version title content].
      unfold lc. cbn [app]. rewrite <- app_assoc. reflexivity. }
  destruct (join_prefix X Y lc HX) as (P & T & HP & HPT).
  rewrite HPT. apply group_1_newline_fails.
  destruct (letter_not_digit d) as (_ & _ & Hn & Hq).
  { unfold bad_escape in Hd. apply andb_true_iff in Hd as [Hd' _].
    by apply andb_true_iff in Hd' as [Hl _]. }
  assert (lc = ("        content: " +:+ Q +:+ format_content a)
               +:+ String BSLASH (String d (format_content b +:+ Q +:+ ","))) as ->.
  { unfold lc. rewrite format_content_app, !format_content_cons.
    change (Ascii.eqb BSLASH NEWLINE) with false. change (Ascii.eqb BSLASH DQUOTE) with false.
    rewrite Hn, Hq. unfold chr. by rewrite !app_cons_s, !app_nil_l_s, !app_assoc_s. }
  rewrite !app_assoc_s. apply safe_prefix_fails; [exact HP |].
  rewrite <- (app_assoc_s Q), <- (app_assoc_s "        content: ").
  apply safe_prefix_fails.
  - apply safe_app; [plain_literal |].
    apply safe_app; [exact safe_Q | by apply safe_format_content].
  - rewrite app_cons_s, app_cons_s. by apply bad_escape_fails.
Qed.

(** X28. When the array is found and its records hold no backslash in
    their contents, an update whose content has a backslash followed by an
    ASCII letter other than a, b, f, g, n, r, t and v, with no backslash
    before it, always raises: the substitution refuses the rendered content
    as a replacement template, and no new file content is produced. *)
Theorem update_rejects_backslash_letter (file_content v t a b : string) (d : ascii)
    (anns : list announcement) (start_line end_line : nat) :
  parse_announcements file_content = Ok (anns, start_line, end_line) →
  Forall (λ ann, Py.count BSLASH (content ann) = 0) anns →
  Py.count BSLASH a = 0 →
  bad_escape d = true →
  ∃ e, update_announcement file_content v t (a +:+ String BSLASH (String d b)) = Raise e.
Proof.
  intros Hp Hclean Ha Hd. unfold update_announcement. rewrite Hp. cbn [rbind].
  assert (∃ l1 l2 w, Forall (λ ann, Py.count BSLASH (content ann) = 0) l1
            ∧ upsert anns v t (a +:+ String BSLASH (String d b))
              = (l1 ++ Announcement v t (a +:+ String BSLASH (String d b)) :: l2, w))
    as (l1 & l2 & w & Hl1 & ->).
  { destruct (upsert_cases anns v t (a +:+ String BSLASH (String d b)))
      as [(l1 & r & l2 & -> & Hv & _ & ->) | [Hno ->]].
    - exists l1, l2, true. split; [| done]. by apply Forall_app in Hclean as [? _].
    - by exists anns, [], false. }
  destruct (replacement_rejects l1 l2 v t a b d Hl1 Ha Hd) as [e He].
  exists e. unfold ReSub.sub. change (ReSub.ngroups sub_pattern) with 3.
  by rewrite He.
Qed.

Lemma X28_witness :
  ∃ e, update_announcement Samples.doc_two_records "0.7.0" "Paths"
         ("see C:" +:+ String BSLASH (String "d" "ocs")) = Raise e.
Proof.
  apply (update_rejects_backslash_letter Samples.doc_two_records "0.7.0" "Paths"
           "see C:" "ocs" "d"
           [Announcement "0.5.0" "Old" "first"; Announcement "0.6.0" "T6" "six"] 2 14).
  - vm_compute. reflexivity.
  - repeat (apply List.Forall_cons; [reflexivity |]). apply List.Forall_nil.
  - reflexivity.
  - reflexivity.
Defined.

End BadEscape.

(** ** A successful run *)

Section CleanRun.
Import Announce AnnounceMain.

(** X29. When the file has one announcements array and, after the list
    update, no record holds a backslash in its content, the update succeeds:
    the new file is the text before the marker, the marker, a line break, the
    regenerated lines as the substitution expands them, the closing token
    and the text after it. *)
Theorem update_succeeds_on_clean_records (file_content v t c : string)
    (anns : list announcement) (start_line end_line : nat) :
  parse_announcements file_content = Ok (anns, start_line, end_line) →
  Re.search array_pattern (Re.m_post (found file_content)) = None →
  Forall (λ ann, Py.count BSLASH (content ann) = 0) (upsert anns v t c).1 →
  update_announcement file_content v t c
  = Ok ((upsert anns v t c).2,
        Re.m_pre (found file_content) +:+ MARKER +:+ NL
        +:+ texp (Py.join NL (array_lines (upsert anns v t c).1) +:+ NL)
        +:+ CLOSE +:+ Re.m_post (found file_content)).
Proof.
  intros Hp Hpost Hclean. unfold found in *.
  destruct (Re.search array_pattern file_content) as [m|] eqn:E.
  - cbn [default] in *.
    by apply (update_announcement_clean _ _ _ _ m anns start_line end_line).
  - unfold parse_announcements in Hp. by rewrite E in Hp.
Qed.

Lemma X29_witness :
  update_announcement Samples.doc_two_records "0.7.0" "Hi" "Hello"
  = Ok ((upsert [Announcement "0.5.0" "Old" "first"; Announcement "0.6.0" "T6" "six"]
           "0.7.0" "Hi" "Hello").2,
        Re.m_pre (found Samples.doc_two_records) +:+ MARKER +:+ NL
        +:+ texp (Py.join NL
                    (array_lines
                       (upsert [Announcement "0.5.0" "Old" "first";
                                Announcement "0.6.0" "T6" "six"]
                          "0.7.0" "Hi" "Hello").1) +:+ NL)
        +:+ CLOSE +:+ Re.m_post (found Samples.doc_two_records)).
Proof.
  apply (update_succeeds_on_clean_records Samples.doc_two_records "0.7.0" "Hi" "Hello"
           [Announcement "0.5.0" "Old" "first"; Announcement "0.6.0" "T6" "six"] 2 14).
  - vm_compute. reflexivity.
  - vm_compute. reflexivity.
  - repeat (apply List.Forall_cons; [reflexivity |]). apply List.Forall_nil.
Defined.




End CleanRun.
